(** * zsh_codex: completion reconciliation, path extraction, classification

    A shallow embedding of [create_completion.py] and [extract_paths.py].

    Python [str] values are modelled as [string]; the alphabet is therefore
    the code points 0-255, and the character categories used by the regular
    expression engine ([\s], [\w]) are written out for that range.  Python
    integers are [Z].  The file system is a finite map from path strings to
    nodes, dictionaries are finite maps, and code with effects runs in a small
    state-and-exception monad over a [world]. *)

From Stdlib Require Import ZArith Ascii String.
From stdpp Require Import gmap strings list fin_maps.

Local Open Scope Z_scope.
Local Open Scope nat_scope.

(** ** Python string primitives *)

Module Py.

(** The line feed character, Python's ["\n"]. *)
Definition LF : ascii := "010"%char.
Definition nl : string := String LF "".

Definition len (s : string) : nat := String.length s.

Fixpoint take (n : nat) (s : string) : string :=
  match n, s with
  | S n', String c s' => String c (take n' s')
  | _, _ => ""
  end.

Fixpoint drop (n : nat) (s : string) : string :=
  match n, s with
  | S n', String _ s' => drop n' s'
  | _, _ => s
  end.

(** A slice bound [i] is normalised as CPython does: a negative bound counts
    from the end, and the result is clamped to [0, len s]. *)
Definition clamp (s : string) (i : Z) : nat :=
  if (i <? 0)%Z then Z.to_nat (Z.max 0 (Z.of_nat (len s) + i))
  else Nat.min (Z.to_nat i) (len s).

(** [s[:i]] and [s[i:]]. *)
Definition slice_to (s : string) (i : Z) : string := take (clamp s i) s.
Definition slice_from (s : string) (i : Z) : string := drop (clamp s i) s.

(** [s.startswith(p)]. *)
Fixpoint startswith (s p : string) : bool :=
  match p, s with
  | "", _ => true
  | String a p', String b s' => if Ascii.eqb a b then startswith s' p' else false
  | String _ _, "" => false
  end.

(** [s.endswith(x)]: the last [len x] characters of [s] are [x]. *)
Definition endswith (s x : string) : bool :=
  if len x <=? len s then String.eqb (drop (len s - len x) s) x else false.

(** [c in chars]. *)
Fixpoint contains (chars : string) (c : ascii) : bool :=
  match chars with
  | "" => false
  | String d chars' => if Ascii.eqb c d then true else contains chars' c
  end.

Fixpoint lstrip (chars s : string) : string :=
  match s with
  | "" => ""
  | String c s' => if contains chars c then lstrip chars s' else s
  end.

Fixpoint rstrip (chars s : string) : string :=
  match s with
  | "" => ""
  | String c s' =>
      match rstrip chars s' with
      | "" => if contains chars c then "" else String c ""
      | r => String c r
      end
  end.

(** [s.strip(chars)]. *)
Definition strip (chars s : string) : string := rstrip chars (lstrip chars s).

(** The last occurrence of the one-character separator [sep] cuts [s] in
    two; [None] when [sep] does not occur. *)
Fixpoint cut_last (sep : ascii) (s : string) : option (string * string) :=
  match s with
  | "" => None
  | String c s' =>
      match cut_last sep s' with
      | Some (a, b) => Some (String c a, b)
      | None => if Ascii.eqb c sep then Some ("", s') else None
      end
  end.

(** [s.rsplit(sep, 1)] for a one-character separator. *)
Definition rsplit1 (sep : ascii) (s : string) : list string :=
  match cut_last sep s with
  | Some (a, b) => [a; b]
  | None => [s]
  end.

(** [s.split(sep)] for a one-character separator. *)
Fixpoint split (sep : ascii) (s : string) : list string :=
  match s with
  | "" => [""]
  | String c s' =>
      if Ascii.eqb c sep then "" :: split sep s'
      else match split sep s' with
           | w :: ws => String c w :: ws
           | [] => [String c ""]
           end
  end.

(** [sep.join(items)]. *)
Fixpoint join (sep : string) (items : list string) : string :=
  match items with
  | [] => ""
  | [x] => x
  | x :: rest => x +:+ sep +:+ join sep rest
  end.

(** [l[-1]] on a list of strings; [rsplit] never returns an empty list, so
    the default is never used there. *)
Definition item_last (l : list string) : string := List.last l "".

(** [l[-n:]] for a positive [n]. *)
Definition last_n {A} (n : nat) (l : list A) : list A :=
  List.skipn (List.length l - n) l.

(** [str.capitalize] on ASCII letters: first character upper-cased, the
    others lower-cased. *)
Definition upper (c : ascii) : ascii :=
  let n := nat_of_ascii c in
  if (97 <=? n) && (n <=? 122) then ascii_of_nat (n - 32) else c.
Definition lower (c : ascii) : ascii :=
  let n := nat_of_ascii c in
  if (65 <=? n) && (n <=? 90) then ascii_of_nat (n + 32) else c.
Fixpoint lower_all (s : string) : string :=
  match s with
  | "" => ""
  | String c s' => String (lower c) (lower_all s')
  end.
Definition capitalize (s : string) : string :=
  match s with
  | "" => ""
  | String c s' => String (upper c) (lower_all s')
  end.

End Py.

(** ** The completion post-processing of [main] (create_completion.py) *)

Definition zsh_prefix : string := "#!/bin/zsh" +:+ Py.nl +:+ Py.nl.

(** [buffer[: args.cursor_position]] and [buffer[args.cursor_position :]]. *)
Definition buffer_prefix (buffer : string) (cursor_position : Z) : string :=
  Py.slice_to buffer cursor_position.
Definition buffer_suffix (buffer : string) (cursor_position : Z) : string :=
  Py.slice_from buffer cursor_position.

Definition full_command (buffer : string) (cursor_position : Z) : string :=
  (zsh_prefix +:+ buffer_prefix buffer cursor_position)
    +:+ buffer_suffix buffer cursor_position.

(** [line_prefix = buffer_prefix.rsplit("\n", 1)[-1]]. *)
Definition line_prefix (buffer_prefix : string) : string :=
  Py.item_last (Py.rsplit1 Py.LF buffer_prefix).

(** The [for prefix in [...]: if completion.startswith(prefix): ...; break]
    loop: the first candidate that is a leading part of [completion] is cut
    off and the loop is left. *)
Fixpoint strip_first_prefix (candidates : list string) (completion : string)
  : string :=
  match candidates with
  | [] => completion
  | prefix :: more =>
      if Py.startswith completion prefix
      then Py.slice_from completion (Z.of_nat (Py.len prefix))
      else strip_first_prefix more completion
  end.

(** Lines 246-259 of [main], from the raw reply to the text written out. *)
Definition reconcile (buffer_prefix buffer_suffix completion : string) : string :=
  let completion :=
    if Py.startswith completion zsh_prefix
    then Py.slice_from completion (Z.of_nat (Py.len zsh_prefix))
    else completion in
  let line_prefix := line_prefix buffer_prefix in
  let completion :=
    strip_first_prefix [buffer_prefix; line_prefix] completion in
  let completion :=
    if negb (String.eqb buffer_suffix "") && Py.endswith completion buffer_suffix
    then Py.slice_to completion (- Z.of_nat (Py.len buffer_suffix))
    else completion in
  Py.strip Py.nl completion.

(** What [main] writes for a buffer, a cursor position and a backend reply. *)
Definition main_output (buffer : string) (cursor_position : Z) (reply : string)
  : string :=
  reconcile (buffer_prefix buffer cursor_position)
            (buffer_suffix buffer cursor_position) reply.

(** ** The regular expression engine behind [re.findall]

    [re] is a backtracking matcher: alternatives are tried from left to right,
    repetitions are greedy, and the first way of matching that succeeds is the
    match.  [Re.ms r st] lists every way of matching [r] at the cursor [st] in
    exactly that order of preference, so its head is the match the engine
    reports. *)

Module Re.

Inductive regex : Type :=
| Chr (c : ascii)                              (* a literal character *)
| Cls (p : ascii -> bool)                      (* a class or category *)
| Cat (r1 r2 : regex)                          (* r1 r2 *)
| Alt (r1 r2 : regex)                          (* r1|r2 *)
| Rep (lo : nat) (hi : option nat) (r : regex) (* r{lo,hi}, greedy *)
| Group (r : regex)                            (* (r), capturing group 1 *)
| WordBoundary.                                (* \b *)

(** A position in the subject: the index, the character before it (for
    [\b]), the text still ahead, and the text of group 1 if it has matched. *)
Record cursor : Type := Cursor {
  pos : nat;
  prev : option ascii;
  rest : string;
  grp : option string
}.

(** [\s] on a [str] pattern: Unicode white space, here for code points
    below 256. *)
Definition is_space (c : ascii) : bool :=
  let n := nat_of_ascii c in
  ((9 <=? n) && (n <=? 13)) || ((28 <=? n) && (n <=? 32))
  || (n =? 133) || (n =? 160).

(** [\w] on a [str] pattern: alphanumeric or underscore, here for code
    points below 256. *)
Definition is_word (c : ascii) : bool :=
  let n := nat_of_ascii c in
  ((48 <=? n) && (n <=? 57)) || ((65 <=? n) && (n <=? 90))
  || ((97 <=? n) && (n <=? 122)) || (n =? 95)
  || (n =? 170) || (n =? 178) || (n =? 179) || (n =? 181)
  || (n =? 185) || (n =? 186) || ((188 <=? n) && (n <=? 190))
  || ((192 <=? n) && (n <=? 214)) || ((216 <=? n) && (n <=? 246))
  || ((248 <=? n) && (n <=? 255)).

Definition word_before (st : cursor) : bool :=
  match prev st with Some c => is_word c | None => false end.
Definition word_after (st : cursor) : bool :=
  match rest st with String c _ => is_word c | "" => false end.

(** One character [c] is consumed. *)
Definition advance (st : cursor) (c : ascii) (s : string) : cursor :=
  {| pos := S (pos st); prev := Some c; rest := s; grp := grp st |}.

Definition eat (p : ascii -> bool) (st : cursor) : list cursor :=
  match rest st with
  | String c s => if p c then [advance st c s] else []
  | "" => []
  end.

(** An iteration of a repetition that consumed nothing is dropped, as the
    engine does to avoid looping on empty matches. *)
Definition progressed (st st' : cursor) : bool := pos st <? pos st'.

Definition below (hi : option nat) (count : nat) : bool :=
  match hi with Some h => count <? h | None => true end.

Definition set_group (st st' : cursor) : cursor :=
  {| pos := pos st'; prev := prev st'; rest := rest st';
     grp := Some (Py.take (pos st' - pos st) (rest st)) |}.

(** The greedy loop of a repetition whose body is matched by [body]: after
    [count] iterations at [st], one more iteration is tried first, and
    stopping here comes last.  [bound] caps the number of further iterations:
    each consumes at least one character, so there are never more than
    [len (rest st)] of them. *)
Fixpoint iterate (body : cursor -> list cursor) (lo : nat) (hi : option nat)
         (bound count : nat) (st : cursor) : list cursor :=
  let stop := if lo <=? count then [st] else [] in
  match bound with
  | O => stop
  | S bound' =>
      (if below hi count
       then List.flat_map (iterate body lo hi bound' (S count))
              (List.filter (progressed st) (body st))
       else [])
      ++ stop
  end.

(** The cursors at which a match of [r] begun at [st] can end, most
    preferred first. *)
Fixpoint ms (r : regex) (st : cursor) : list cursor :=
  match r with
  | Chr c => eat (Ascii.eqb c) st
  | Cls p => eat p st
  | Cat r1 r2 => List.flat_map (ms r2) (ms r1 st)
  | Alt r1 r2 => ms r1 st ++ ms r2 st
  | Rep lo hi r1 => iterate (ms r1) lo hi (Py.len (rest st)) 0 st
  | Group r1 => List.map (set_group st) (ms r1 st)
  | WordBoundary =>
      if xorb (word_before st) (word_after st) then [st] else []
  end.

(** [r] has no capturing group. *)
Fixpoint group_free (r : regex) : bool :=
  match r with
  | Chr _ | Cls _ | WordBoundary => true
  | Cat r1 r2 | Alt r1 r2 => group_free r1 && group_free r2
  | Rep _ _ r1 => group_free r1
  | Group _ => false
  end.

(** The match the engine finds at [st], if any. *)
Definition match_at (r : regex) (st : cursor) : option cursor :=
  List.hd_error (ms r st).

(** One item of [finditer]: where the match began and where it ended. *)
Record found : Type := Found { m_from : cursor; m_to : cursor }.

Definition span (m : found) : nat := pos (m_to m) - pos (m_from m).
Definition whole (m : found) : string := Py.take (span m) (rest (m_from m)).

(** The left-to-right scan of [finditer]: try a match at the current
    position; after a match the scan resumes where it ended ([skip] counts
    the characters of the last match still to be stepped over, and an empty
    match is followed by an attempt one character further). *)
Fixpoint scan (r : regex) (i : nat) (before : option ascii) (s : string)
         (skip : nat) : list found :=
  let here := {| pos := i; prev := before; rest := s; grp := None |} in
  match skip with
  | S k =>
      match s with
      | String c s' => scan r (S i) (Some c) s' k
      | "" => []
      end
  | O =>
      match match_at r here with
      | Some e =>
          Found here e ::
            match s with
            | String c s' => scan r (S i) (Some c) s' (pos e - i - 1)
            | "" => []
            end
      | None =>
          match s with
          | String c s' => scan r (S i) (Some c) s' 0
          | "" => []
          end
      end
  end.

Definition finditer (r : regex) (text : string) : list found :=
  scan r 0 None text 0.

(** What [findall] returns for a match when the pattern has exactly one
    capturing group: the text of that group, and the empty string when the
    group took no part in the match. *)
Definition item (m : found) : string :=
  match grp (m_to m) with Some g => g | None => "" end.

Definition findall (r : regex) (text : string) : list string :=
  List.map item (finditer r text).

End Re.

(** ** The two patterns of [extract_paths] *)

Definition non_space (c : ascii) : bool := negb (Re.is_space c).

(** [[a-zA-Z]] *)
Definition letter (c : ascii) : bool :=
  let n := nat_of_ascii c in
  ((97 <=? n) && (n <=? 122)) || ((65 <=? n) && (n <=? 90)).

(** [[^\\\s,]] *)
Definition segment_char (c : ascii) : bool :=
  negb (Ascii.eqb c "\" || Re.is_space c || Ascii.eqb c ",").

Definition plus (r : Re.regex) : Re.regex := Re.Rep 1 None r.
Definition star (r : Re.regex) : Re.regex := Re.Rep 0 None r.
Definition opt (r : Re.regex) : Re.regex := Re.Rep 0 (Some 1) r.

Declare Scope regex_scope.
Delimit Scope regex_scope with re.
Infix "·" := Re.Cat (at level 40, left associativity) : regex_scope.
Infix "│" := Re.Alt (at level 50, left associativity) : regex_scope.

(** [(\.{1,2}/\S+|/\S+|\b\S+/\S+\b)] *)
Definition unix_path_pattern : Re.regex :=
  Re.Group
    ( (Re.Rep 1 (Some 2) (Re.Chr ".") · (Re.Chr "/" · plus (Re.Cls non_space)))
    │ ((Re.Chr "/" · plus (Re.Cls non_space))
    │ (Re.WordBoundary · (plus (Re.Cls non_space) · (Re.Chr "/"
         · (plus (Re.Cls non_space) · Re.WordBoundary))))) )%re.

(** [[a-zA-Z]:\\(?:[^\\\s,]+\\?)*[^\\\s,]+] *)
Definition windows_path_pattern : Re.regex :=
  ( Re.Cls letter · (Re.Chr ":" · (Re.Chr "\"
    · (star (plus (Re.Cls segment_char) · opt (Re.Chr "\"))
    · plus (Re.Cls segment_char)))) )%re.

(** [f"{unix_path_pattern}|{windows_path_pattern}"] *)
Definition combined_pattern : Re.regex :=
  (unix_path_pattern │ windows_path_pattern)%re.

(** ** Python's [repr] of the values the program formats *)

Module Repr.

Definition hex_digit (n : nat) : ascii :=
  if n <? 10 then ascii_of_nat (48 + n) else ascii_of_nat (87 + n).

(** [str.isprintable] for one code point below 256. *)
Definition printable (n : nat) : bool :=
  ((32 <=? n) && (n <=? 126)) || ((161 <=? n) && negb (n =? 173)).

Definition escape (quote : ascii) (c : ascii) : string :=
  let n := nat_of_ascii c in
  if Ascii.eqb c quote || Ascii.eqb c "\" then String "\" (String c "")
  else if n =? 9 then "\t"
  else if n =? 10 then "\n"
  else if n =? 13 then "\r"
  else if printable n then String c ""
  else String "\" (String "x"
         (String (hex_digit (n / 16)) (String (hex_digit (n mod 16)) ""))).

Fixpoint escape_all (quote : ascii) (s : string) : string :=
  match s with
  | "" => ""
  | String c s' => escape quote c +:+ escape_all quote s'
  end.

(** [repr(s)]: single quotes, unless [s] has a single quote and no double
    quote. *)
Definition of_str (s : string) : string :=
  let quote : ascii :=
    if Py.contains s "'"%char && negb (Py.contains s "034"%char)
    then "034"%char else "'"%char in
  String quote (escape_all quote s) +:+ String quote "".

Definition of_bool (b : bool) : string := if b then "True" else "False".

Definition of_list {A} (item : A -> string) (l : list A) : string :=
  "[" +:+ Py.join ", " (List.map item l) +:+ "]".

(** [repr] of a dictionary with [str] keys and values, in insertion
    order. *)
Definition of_dict (d : list (string * string)) : string :=
  "{" +:+ Py.join ", "
            (List.map (fun kv => of_str (fst kv) +:+ ": " +:+ of_str (snd kv)) d)
      +:+ "}".

End Repr.

(** ** The world the program runs in *)

Inductive node : Type :=
| Dir (names : list string)
| File (content : string).

(** What the program does that can be seen from outside. *)
Inductive event : Type :=
| Printed (line : string)                    (* print(line) *)
| StdoutWritten (text : string)              (* sys.stdout.write(text) *)
| FileRead (path : string)
| DirListed (path : string)
| FileWritten (path content : string)
| BackendCalled (model payload : string).

(** Environment variables, the home directory of the password database (used
    by [expanduser] when [HOME] is unset), the file system, the paths at which
    the operating system refuses to create or write a file for a reason the
    file map does not show (permissions, a read-only or full device), each
    with the error raised, and the events so far, oldest first.  A file's
    content is the text that reading it yields. *)
Record world : Type := World {
  environ : gmap string string;
  pw_dir : option string;
  fs : gmap string node;
  refused : gmap string string;
  log : list event
}.

Inductive outcome (A : Type) : Type :=
| Returned (a : A)
| Exited (status : Z)
| Raised (exception : string).
Arguments Returned {A} a.
Arguments Exited {A} status.
Arguments Raised {A} exception.

(** A computation reads and changes the world and returns, exits or raises. *)
Definition run (A : Type) : Type := world -> outcome A * world.

#[global] Instance run_ret : MRet run := fun A a w => (Returned a, w).
#[global] Instance run_bind : MBind run := fun A B k m w =>
  match m w with
  | (Returned a, w') => k a w'
  | (Exited status, w') => (Exited status, w')
  | (Raised e, w') => (Raised e, w')
  end.

Definition raise {A} (e : string) : run A := fun w => (Raised e, w).
Definition sys_exit {A} (status : Z) : run A := fun w => (Exited status, w).

(** The world after one more event. *)
Definition record_event (w : world) (e : event) : world :=
  {| environ := environ w; pw_dir := pw_dir w; fs := fs w;
     refused := refused w; log := log w ++ [e] |}.

(** The world after [content] has been written to the file at [path]. *)
Definition put_file (w : world) (path content : string) : world :=
  {| environ := environ w; pw_dir := pw_dir w;
     fs := <[path := File content]> (fs w);
     refused := refused w;
     log := log w ++ [FileWritten path content] |}.

Definition emit (e : event) : run unit := fun w =>
  (Returned tt, record_event w e).

Definition print (line : string) : run unit := emit (Printed line).
Definition stdout_write (text : string) : run unit := emit (StdoutWritten text).

(** ** [os.path] on POSIX *)

Module OsPath.

Definition last_char (s : string) : option ascii :=
  match Py.drop (Py.len s - 1) s with String c _ => Some c | "" => None end.

(** [os.path.join(a, b)] *)
Definition join (a b : string) : string :=
  if Py.startswith b "/" then b
  else if String.eqb a "" then b
  else match last_char a with
       | Some "/"%char => a +:+ b
       | _ => a +:+ "/" +:+ b
       end.

Definition exists_ (fs : gmap string node) (path : string) : bool :=
  match fs !! path with Some _ => true | None => false end.
Definition isdir (fs : gmap string node) (path : string) : bool :=
  match fs !! path with Some (Dir _) => true | _ => false end.
Definition isfile (fs : gmap string node) (path : string) : bool :=
  match fs !! path with Some (File _) => true | _ => false end.

(** [os.path.dirname(path)]: the part up to the last slash, without its
    trailing slashes unless it consists of slashes only. *)
Definition dirname (path : string) : string :=
  match Py.cut_last "/" path with
  | None => ""
  | Some (before, _) =>
      let head := before +:+ "/" in
      if String.eqb (Py.lstrip "/" head) "" then head else Py.rstrip "/" head
  end.

(** [os.path.expanduser("~/.config")] *)
Definition expanduser_config (w : world) : string :=
  match environ w !! "HOME" with
  | Some home => Py.rstrip "/" home +:+ "/.config"
  | None =>
      match pw_dir w with
      | Some home => Py.rstrip "/" home +:+ "/.config"
      | None => "~/.config"
      end
  end.

End OsPath.

(** [os.environ[name]] *)
Definition environ_get (name : string) : run string := fun w =>
  match environ w !! name with
  | Some v => (Returned v, w)
  | None => (Raised "KeyError", w)
  end.

(** [d[key]] on a dictionary of strings. *)
Definition dict_get (d : gmap string string) (key : string) : run string :=
  match d !! key with
  | Some v => mret v
  | None => raise "KeyError"
  end.

(** [config[name]] on the sections of a parsed configuration. *)
Definition dict_get_section (d : gmap string (gmap string string))
           (name : string) : run (gmap string string) :=
  match d !! name with
  | Some section => mret section
  | None => raise "KeyError"
  end.

(** [open(path, "r").read()] *)
Definition read_file (path : string) : run string := fun w =>
  match fs w !! path with
  | Some (File content) => (emit (FileRead path) ≫= λ _, mret content) w
  | Some (Dir _) => (Raised "IsADirectoryError", w)
  | None => (Raised "FileNotFoundError", w)
  end.

(** The error [open(path, "w")] raises, if any: the directory the path lies
    in has to be there (the current directory and the root always are), the
    path must not be a directory, and the operating system must not refuse
    the file. *)
Definition open_error (w : world) (path : string) : option string :=
  let parent := OsPath.dirname path in
  let parent_error :=
    if String.eqb (Py.lstrip "/" parent) "" then None
    else match fs w !! parent with
         | Some (Dir _) => None
         | Some (File _) => Some "NotADirectoryError"
         | None => Some "FileNotFoundError"
         end in
  match parent_error with
  | Some e => Some e
  | None =>
      match fs w !! path with
      | Some (Dir _) => Some "IsADirectoryError"
      | _ => refused w !! path
      end
  end.

(** [with open(path, "w") as f: f.write(content)]: when the file can be
    opened it is created or replaced; otherwise the error is raised and
    nothing is written. *)
Definition write_file (path content : string) : run unit := fun w =>
  match open_error w path with
  | Some e => (Raised e, w)
  | None => (Returned tt, put_file w path content)
  end.

(** [os.listdir(path)] *)
Definition listdir (path : string) : run (list string) := fun w =>
  match fs w !! path with
  | Some (Dir names) => (emit (DirListed path) ≫= λ _, mret names) w
  | Some (File _) => (Raised "NotADirectoryError", w)
  | None => (Raised "FileNotFoundError", w)
  end.

(** ** [extract_paths] *)

(** The values a match list could hold as far as the sanity check is
    concerned: [findall] yields strings when the pattern has one group and
    tuples of strings when it has several. *)
Inductive pyobj : Type :=
| OStr (s : string)
| OTuple (items : list string)
| ONone.

Definition isinstance_str (p : pyobj) : bool :=
  match p with OStr _ => true | _ => false end.

(** The truth value of a list: only the empty list is false. *)
Definition truthy {A} (l : list A) : bool :=
  match l with [] => false | _ :: _ => true end.

(** [all(iterable)] over truth values. *)
Definition py_all (l : list bool) : bool := List.forallb id l.

(** [[[isinstance(p, str)] for p in matches]] *)
Definition checks (matches : list pyobj) : list (list bool) :=
  List.map (fun p => [isinstance_str p]) matches.

(** [all([[isinstance(p, str)] for p in matches])]: [all] takes the truth
    value of each one-element list. *)
Definition sanity_check (matches : list pyobj) : bool :=
  py_all (List.map truthy (checks matches)).

Definition warning : string := "[ WARNING ] Failed to extract paths in zsh_codex".

(** [extract_paths] of create_completion.py: the lines printed and the list
    returned. *)
Definition extract_paths (text : string) : list string * list string :=
  let matches := Re.findall combined_pattern text in
  if negb (sanity_check (List.map OStr matches))
  then ([warning], [])
  else ([], matches).

Module Script.

(** [extract_paths] of extract_paths.py, which also prints the matches and
    the table of checks. *)
Definition extract_paths (input_string : string) : list string * list string :=
  let matches := Re.findall combined_pattern input_string in
  let printed :=
    [Repr.of_list Repr.of_str matches;
     Repr.of_list (Repr.of_list Repr.of_bool) (checks (List.map OStr matches))] in
  if negb (sanity_check (List.map OStr matches))
  then (printed ++ [warning], [])
  else (printed, matches).

End Script.

(** ** The directory and file classifiers *)

(** [valid_dirs = []; for path in paths: if ...: valid_dirs.append([path])] *)
Definition extract_valid_dirs (fs : gmap string node) (paths : list string)
           (cwd : string) : list (list string) :=
  List.fold_left
    (fun valid_dirs path =>
       if OsPath.isdir fs (OsPath.join cwd path)
       then valid_dirs ++ [[path]] else valid_dirs)
    paths [].

Definition extract_valid_files (fs : gmap string node) (paths : list string)
           (cwd : string) : list (list string) :=
  List.fold_left
    (fun valid_files path =>
       if OsPath.exists_ fs (OsPath.join cwd path)
          && negb (OsPath.isdir fs (OsPath.join cwd path))
       then valid_files ++ [[path]] else valid_files)
    paths [].

(** ** Configuration bootstrap *)

(** [os.getenv("XDG_CONFIG_HOME", os.path.expanduser("~/.config"))] *)
Definition CONFIG_DIR (w : world) : string :=
  match environ w !! "XDG_CONFIG_HOME" with
  | Some d => d
  | None => OsPath.expanduser_config w
  end.
Definition OPENAI_API_KEYS_LOCATION (w : world) : string :=
  OsPath.join (CONFIG_DIR w) "openaiapirc".
Definition GEMINI_API_KEYS_LOCATION (w : world) : string :=
  OsPath.join (CONFIG_DIR w) "geminiapirc".

Definition openai_template : string :=
  "[openai]" +:+ Py.nl +:+ "secret_key=" +:+ Py.nl
  +:+ "api_base=https://api.openai.com/v1" +:+ Py.nl
  +:+ "model=gpt-4-turbo-preview" +:+ Py.nl.
Definition gemini_template : string :=
  "[gemini]" +:+ Py.nl +:+ "api_key=" +:+ Py.nl.

(** The [file_path], [content] and [url] chosen for [api_type]. *)
Definition template_for (api_type : string) (w : world)
  : string * string * string :=
  if String.eqb api_type "openai"
  then (OPENAI_API_KEYS_LOCATION w, openai_template,
        "https://platform.openai.com/api-keys")
  else (GEMINI_API_KEYS_LOCATION w, gemini_template, "Google AI Studio").

Definition create_template_ini_file (api_type : string) : run unit := fun w =>
  let '(file_path, content, url) := template_for api_type w in
  if negb (OsPath.isfile (fs w) file_path)
  then
    (write_file file_path content ≫= λ _,
     print (Py.capitalize api_type +:+ " API config file created at "
            +:+ file_path) ≫= λ _,
     print "Please edit it and add your API key" ≫= λ _,
     print ("If you do not yet have an API key, you can get it from: "
            +:+ url) ≫= λ _,
     sys_exit 1%Z) w
  else (Returned tt, w).

(** ** [get_completion] *)

(** One entry of [send_messages]. *)
Record message : Type := Message { role : string; content : string }.

Definition repr_message (m : message) : string :=
  Repr.of_dict [("role", role m); ("content", content m)].

(** What the program reads from the reply of [chat.completions.create]: the
    texts of [usage], [model] and [choices], and the content of the first
    choice when there is one. *)
Record chat_response : Type := ChatResponse {
  usage_str : string;
  model_str : string;
  choices_str : string;
  first_content : option string
}.

(** The two clients returned by [initialize_api].  A call either raises or
    answers.  The temperature is kept as the configuration has it ([None]
    stands for the default 1.0); its conversion to a float is not modelled. *)
Inductive client : Type :=
| OpenAIClient
    (create : string -> list message -> option string -> string + chat_response)
| GenAI (send_message : string -> string -> string + string).

Definition openai_system_prompt : string :=
  "You are a zsh shell expert, please help me complete the following command. Only output the completed command, no need for any other explanation. Do not put the completed command in a code block. The command should be a one-liner meant for the terminal. Shebangs like '#!/bin/bash' or '#!/bin/zsh' should NEVER be in your response. You are on MacOS. Avoid commands that are Linux exclusive, like 'apt' or 'yum'. After ".

Definition context_note : string :=
  "Here is additional context to help with the command completion. You may find some of this information useful, but you are not required to use any of it unless it is relevant to the command.".

Definition gemini_prompt : string :=
  "You are a zsh shell expert, please help me complete the following command. Only output the completed command, no need for any other explanation. Do not put the completed command in a code block. The command should be a one-liner meant for the terminal. Shebangs like '#!/bin/bash' or '#!/bin/zsh' should NEVER be in your response. You are on MacOS. Avoid reponses with potentially dangerous commands, like 'rm -rf *' or 'sudo' unless absolutely necessary. "
  +:+ Py.nl +:+ Py.nl.

(** [zsh_history.split("\n")[-1000:]], then [item[15:]] for each line, joined
    by line feeds. *)
Definition history_tail (zsh_history : string) : string :=
  Py.join Py.nl
    (List.map (Py.drop 15) (Py.last_n 1000 (Py.split Py.LF zsh_history))).

Definition send_messages (full_command cwd : string) (names : list string)
           (zsh_history : string) : list message :=
  [ Message "system" openai_system_prompt;
    Message "user" full_command;
    Message "system" context_note;
    Message "system"
      ("ls -larth: " +:+ Py.nl +:+ " " +:+ Repr.of_list Repr.of_str names);
    Message "system" ("pwd: " +:+ Py.nl +:+ " " +:+ cwd);
    Message "system" (".zsh_history: " +:+ Py.nl +:+ " " +:+ zsh_history) ].

(** The payload of a chat request as the log records it. *)
Definition payload (messages : list message) : string :=
  Repr.of_list repr_message messages.

Definition chat_create (c : client) (model : string) (messages : list message)
           (temperature : option string) : run chat_response :=
  match c with
  | OpenAIClient create =>
      emit (BackendCalled model (payload messages)) ≫= λ _,
      match create model messages temperature with
      | inr response => mret response
      | inl e => raise e
      end
  | GenAI _ => raise "AttributeError"
  end.

Definition chat_send (c : client) (model prompt : string) : run string :=
  match c with
  | GenAI send_message =>
      emit (BackendCalled model prompt) ≫= λ _,
      match send_message model prompt with
      | inr text => mret text
      | inl e => raise e
      end
  | OpenAIClient _ => raise "AttributeError"
  end.

Definition get_completion (api_type : string) (c : client)
           (config : gmap string string) (full_command cwd : string)
  : run string :=
  environ_get "HOME" ≫= λ home,
  if String.eqb api_type "openai" then
    read_file (OsPath.join home ".zsh_history") ≫= λ zsh_history,
    let zsh_history := history_tail zsh_history in
    listdir cwd ≫= λ names,
    let messages := send_messages full_command cwd names zsh_history in
    dict_get config "model" ≫= λ model,
    chat_create c model messages (config !! "temperature") ≫= λ response,
    write_file "send.txt"
      ("model = " +:+ model +:+ Py.nl +:+ Py.nl
       +:+ "messages = " +:+ payload messages +:+ Py.nl +:+ Py.nl) ≫= λ _,
    write_file "response.txt"
      (usage_str response +:+ Py.nl +:+ Py.nl
       +:+ model_str response +:+ Py.nl +:+ Py.nl
       +:+ choices_str response +:+ Py.nl +:+ Py.nl) ≫= λ _,
    match first_content response with
    | Some text => mret text
    | None => raise "IndexError"
    end
  else
    dict_get config "model" ≫= λ model,
    chat_send c model (gemini_prompt +:+ full_command).

(** [main] from the point where the arguments are parsed and the client is
    initialised: read the buffer, ask the backend, reconcile, write. *)
Definition main_body (api cwd : string) (cursor_position : Z) (c : client)
           (config : gmap string string) (buffer : string) : run unit :=
  get_completion api c config (full_command buffer cursor_position) cwd
    ≫= λ completion,
  stdout_write (main_output buffer cursor_position completion).

(** ** The reconciliation steps as the specification words them

    Each step is a relation between the text before and after it, stated
    with concatenation only. *)

Module Spec.

(** Every character of [s] is a line break. *)
Fixpoint all_breaks (s : string) : Prop :=
  match s with
  | "" => True
  | String c s' => c = Py.LF /\ all_breaks s'
  end.

(** [s] holds no line break. *)
Fixpoint no_break (s : string) : Prop :=
  match s with
  | "" => True
  | String c s' => c <> Py.LF /\ no_break s'
  end.

Definition leads (p s : string) : Prop := exists r, s = p +:+ r.
Definition trails (x s : string) : Prop := exists a, s = a +:+ x.

(** (a) the marker is removed when the reply starts with it. *)
Definition marker_removed (reply out : string) : Prop :=
  (reply = zsh_prefix +:+ out) \/ (~ leads zsh_prefix reply /\ out = reply).

(** (b) the portion of [prefix] after its final line break, or all of it. *)
Definition is_line_prefix (prefix lp : string) : Prop :=
  no_break lp /\
  ((exists a, prefix = a +:+ Py.nl +:+ lp) \/ prefix = lp).

(** (c) the full prefix first, then the line prefix; one occurrence only. *)
Definition lead_removed (prefix lp s out : string) : Prop :=
  (s = prefix +:+ out)
  \/ (~ leads prefix s /\ s = lp +:+ out)
  \/ (~ leads prefix s /\ ~ leads lp s /\ out = s).

(** (d) a trailing occurrence of a non-empty suffix is removed. *)
Definition trail_removed (suffix s out : string) : Prop :=
  (suffix <> "" /\ s = out +:+ suffix)
  \/ ((suffix = "" \/ ~ trails suffix s) /\ out = s).

(** (e) the line breaks around the text are removed, and nothing else. *)
Definition breaks_trimmed (s out : string) : Prop :=
  exists l r, s = l +:+ out +:+ r /\ all_breaks l /\ all_breaks r
    /\ ~ leads Py.nl out /\ ~ trails Py.nl out.

(** Steps (a) to (e), in this order. *)
Definition reconciled (prefix suffix reply out : string) : Prop :=
  exists s1 lp s2 s3,
    marker_removed reply s1 /\ is_line_prefix prefix lp
    /\ lead_removed prefix lp s1 s2 /\ trail_removed suffix s2 s3
    /\ breaks_trimmed s3 out.

End Spec.

(** ** Reading the runs *)

(** The events a computation adds to the log of [w]. *)
Definition effects {A} (m : run A) (w : world) : list event :=
  List.skipn (List.length (log w)) (log (snd (m w))).

(** The completion path does nothing but call the backend once and write
    the completion out. *)
Definition only_call_and_output (events : list event) : Prop :=
  exists model payload text,
    events = [BackendCalled model payload; StdoutWritten text].

(** A match found by the Windows alternative: the Unix alternative, which is
    tried first, has no match where [m] begins, and the Windows pattern has
    its match there, ending where [m] ends. *)
Definition windows_match (m : Re.found) : Prop :=
  Re.ms unix_path_pattern (Re.m_from m) = []
  /\ Re.match_at windows_path_pattern (Re.m_from m) = Some (Re.m_to m).

(** What the body of a repetition has to satisfy for the loop bound to be
    sound: it moves forward only, and by as much as it takes from the text
    ahead. *)
Definition consuming (body : Re.cursor -> list Re.cursor) : Prop :=
  forall st st', In st' (body st) ->
    Re.pos st <= Re.pos st'
    /\ Re.pos st' + Py.len (Re.rest st') = Re.pos st + Py.len (Re.rest st).

(** Group 1 is as it was wherever a match by [body] ends. *)
Definition keeps_group (body : Re.cursor -> list Re.cursor) : Prop :=
  forall st st', In st' (body st) -> Re.grp st' = Re.grp st.

(** A world, a client and a configuration to run the program on. *)
Definition demo_world : world :=
  {| environ := {[ "HOME" := "/home/u" ]};
     pw_dir := None;
     fs := {[ "/home/u/.zsh_history" := File ": 1700000000:0;ls -la";
              "/tmp" := Dir ["notes.txt"] ]};
     refused := ∅;
     log := [] |}.

(** The same with the configuration directory in place, still empty. *)
Definition demo_fresh : world :=
  {| environ := {[ "HOME" := "/home/u" ]};
     pw_dir := None;
     fs := {[ "/home/u/.config" := Dir [];
              "/home/u/.zsh_history" := File ": 1700000000:0;ls -la";
              "/tmp" := Dir ["notes.txt"] ]};
     refused := ∅;
     log := [] |}.

Definition demo_config : gmap string string := {[ "model" := "m" ]}.

Definition demo_openai : client :=
  OpenAIClient (fun _ _ _ => inr (ChatResponse "usage" "m" "choices" (Some "ls -la"))).

Definition demo_gemini : client := GenAI (fun _ _ => inr "ls -la").

(** A single group around a candidate, as the classifiers append it. *)
Definition wrap (path : string) : list string := [path].

(** ** What a pattern is bound to consume *)

(** Every match of [r] consumes an occurrence of the character [c]. *)
Fixpoint needs (c : ascii) (r : Re.regex) : bool :=
  match r with
  | Re.Chr d => Ascii.eqb c d
  | Re.Cls _ | Re.WordBoundary => false
  | Re.Cat r1 r2 => needs c r1 || needs c r2
  | Re.Alt r1 r2 => needs c r1 && needs c r2
  | Re.Rep lo _ r1 => (0 <? lo) && needs c r1
  | Re.Group r1 => needs c r1
  end.

(** Every character a match of [r] consumes satisfies [P]. *)
Fixpoint consumes_only (P : ascii -> Prop) (r : Re.regex) : Prop :=
  match r with
  | Re.Chr d => P d
  | Re.Cls p => forall c, p c = true -> P c
  | Re.WordBoundary => True
  | Re.Cat r1 r2 | Re.Alt r1 r2 => consumes_only P r1 /\ consumes_only P r2
  | Re.Rep _ _ r1 | Re.Group r1 => consumes_only P r1
  end.

(** Every character of [s] satisfies [P]. *)
Fixpoint chars (P : ascii -> Prop) (s : string) : Prop :=
  match s with
  | "" => True
  | String c s' => P c /\ chars P s'
  end.

(** From [st] a match reaches [st'] by consuming exactly [a]. *)
Definition eats (st : Re.cursor) (a : string) (st' : Re.cursor) : Prop :=
  Re.rest st = a +:+ Re.rest st' /\ Re.pos st' = Re.pos st + Py.len a.

(** What is known of the text consumed between [st] and [st']: it holds
    [c] if [nd] is set, and only characters satisfying [P] if [on] holds. *)
Definition consumed (c : ascii) (P : ascii -> Prop) (nd : bool) (on : Prop)
           (st st' : Re.cursor) : Prop :=
  exists a, eats st a st'
            /\ (nd = true -> Py.contains a c = true) /\ (on -> chars P a).

(** The entries of [l] occur in [text] one after the other, without
    overlap. *)
Fixpoint in_order (l : list string) (text : string) : Prop :=
  match l with
  | [] => True
  | x :: l' => exists a b, text = a +:+ x +:+ b /\ in_order l' b
  end.

(** ** Counting and framing effects *)

Definition is_call (e : event) : bool :=
  match e with BackendCalled _ _ => true | _ => false end.

(** The number of backend calls among [events]. *)
Definition calls (events : list event) : nat :=
  List.length (List.filter is_call events).

(** Whatever the outcome, [m] leaves the environment alone, only adds to
    the log, and calls the backend at most [n] times. *)
Definition quiet {A} (n : nat) (m : run A) : Prop :=
  forall w,
    environ (snd (m w)) = environ w /\ pw_dir (snd (m w)) = pw_dir w
    /\ exists events,
         log (snd (m w)) = log w ++ events /\ calls events <= n.

(** Whatever the outcome, [m] leaves every path outside [paths] as it was. *)
Definition touches {A} (paths : list string) (m : run A) : Prop :=
  forall w q, ~ In q paths -> fs (snd (m w)) !! q = fs w !! q.

(** ** [initialize_api] and [main] *)

(** [d.setdefault(key, value)] *)
Definition setdefault (d : gmap string string) (key value : string)
  : gmap string string :=
  match d !! key with
  | Some _ => d
  | None => <[key := value]> d
  end.

(** The double and the single quote, the characters the configuration
    values are stripped of. *)
Definition quotes : string := String "034"%char (String "'"%char "").

(** [os.getenv("OPENAI_DEFAULT_MODEL", "gpt-4o-mini")] and its Gemini
    counterpart. *)
Definition OPENAI_DEFAULT_MODEL (w : world) : string :=
  match environ w !! "OPENAI_DEFAULT_MODEL" with
  | Some m => m
  | None => "gpt-4o-mini"
  end.
Definition GEMINI_DEFAULT_MODEL (w : world) : string :=
  match environ w !! "GEMINI_DEFAULT_MODEL" with
  | Some m => m
  | None => "gemini-1.5-pro-latest"
  end.

(** The parsed command line: [--api], [cursor_position] and [--cwd]. *)
Record arguments : Type := Arguments_ {
  arg_api : string;
  arg_cursor_position : Z;
  arg_cwd : string
}.

Section Libraries.

(** What [configparser] makes of the text of a file: an exception, or the
    items of each section as [config[section].items()] yields them. *)
Variable parse_config : string -> string + gmap string (gmap string string).

(** [OpenAI(api_key=..., base_url=..., organization=...)]: an exception or
    a client. *)
Variable make_openai : string -> string -> option string -> string + client.

(** [genai.configure(api_key=...)]: an exception, or the configured
    module, which serves as the client. *)
Variable configure_genai : string -> string + client.

(** [config.read(path)]: a file that cannot be opened is skipped. *)
Definition config_read (path : string)
  : run (gmap string (gmap string string)) := fun w =>
  match fs w !! path with
  | Some (File text) =>
      match parse_config text with
      | inr sections => (Returned sections, record_event w (FileRead path))
      | inl e => (Raised e, record_event w (FileRead path))
      end
  | _ => (Returned ∅, w)
  end.

(** The module-level constants are read off the environment. *)
Definition ask : run world := fun w => (Returned w, w).

Definition construct {A} (made : string + A) : run A :=
  match made with
  | inr a => mret a
  | inl e => raise e
  end.

Definition initialize_api (api_type : string)
  : run (client * gmap string string) :=
  create_template_ini_file api_type ≫= λ _,
  ask ≫= λ constants,
  if String.eqb api_type "openai" then
    config_read (OPENAI_API_KEYS_LOCATION constants) ≫= λ config,
    dict_get_section config "openai" ≫= λ section,
    let api_config := Py.strip quotes <$> section in
    dict_get api_config "secret_key" ≫= λ secret_key,
    construct
      (make_openai secret_key
         (default "https://api.openai.com/v1" (api_config !! "api_base"))
         (api_config !! "organization")) ≫= λ c,
    mret (c, setdefault api_config "model"
               (default (OPENAI_DEFAULT_MODEL constants)
                  (api_config !! "model")))
  else
    config_read (GEMINI_API_KEYS_LOCATION constants) ≫= λ config,
    dict_get_section config "gemini" ≫= λ section,
    let api_config := Py.strip quotes <$> section in
    dict_get api_config "api_key" ≫= λ api_key,
    construct (configure_genai api_key) ≫= λ c,
    mret (c, setdefault api_config "model" (GEMINI_DEFAULT_MODEL constants)).

(** [main], from the parsed arguments on.  [openai_lib] and [genai_lib]
    tell whether the imports at the top of the file succeeded; [stdin] is
    what [sys.stdin.read()] returns. *)
Definition main (openai_lib genai_lib : bool) (args : arguments)
           (stdin : string) : run unit :=
  if String.eqb (arg_api args) "openai" && negb openai_lib then
    print "OpenAI library is not installed. Please install it using 'pip install openai'"
      ≫= λ _, sys_exit 1%Z
  else if String.eqb (arg_api args) "gemini" && negb genai_lib then
    print "Google Generative AI library is not installed. Please install it using 'pip install google-generativeai'"
      ≫= λ _, sys_exit 1%Z
  else
    initialize_api (arg_api args) ≫= λ initialized,
    main_body (arg_api args) (arg_cwd args) (arg_cursor_position args)
      (fst initialized) (snd initialized) stdin.

End Libraries.

(** ** The script of extract_paths.py *)

(** The [__main__] block: [input_string = sys.argv[1]], then the two
    report lines after what [extract_paths] printed.  The outcome and the
    lines printed. *)
Definition script_main (argv : list string) : outcome unit * list string :=
  match List.nth_error argv 1 with
  | None => (Raised "IndexError", [])
  | Some input_string =>
      let '(printed, extracted_paths) := Script.extract_paths input_string in
      (Returned tt,
       printed ++ ["Input: " +:+ input_string;
                   "Extracted paths: "
                   +:+ Repr.of_list Repr.of_str extracted_paths])
  end.

(** A parser, a constructor and a configuration file to run [main] on. *)
Definition demo_parse (text : string)
  : string + gmap string (gmap string string) :=
  inr {[ "openai" := {[ "secret_key" := "'sk-1'" ]};
         "gemini" := {[ "api_key" := "'k'"; "model" := "g-1" ]} ]}.

Definition demo_make_openai (key base : string) (org : option string)
  : string + client := inr demo_openai.

Definition demo_configure (key : string) : string + client := inr demo_gemini.

Definition demo_configured : world :=
  {| environ := {[ "HOME" := "/home/u" ]};
     pw_dir := None;
     fs := {[ "/home/u/.config" := Dir ["openaiapirc"; "geminiapirc"];
              "/home/u/.config/openaiapirc" := File "[openai]";
              "/home/u/.config/geminiapirc" := File "[gemini]";
              "/home/u/.zsh_history" := File ": 1700000000:0;ls -la";
              "/tmp" := Dir ["notes.txt"] ]};
     refused := ∅;
     log := [] |}.

(** ** Facts about the string primitives *)

Section StringFacts.

#[local] Arguments String.append : simpl nomatch.

Lemma str_app_nil_r (s : string) : s +:+ "" = s.
Proof. induction s as [|c s IH]; simpl; [reflexivity | now rewrite IH]. Qed.

Lemma str_app_assoc (a b c : string) : (a +:+ b) +:+ c = a +:+ (b +:+ c).
Proof. induction a as [|x a IH]; simpl; [reflexivity | now rewrite IH]. Qed.

Lemma str_len_app (a b : string) : Py.len (a +:+ b) = Py.len a + Py.len b.
Proof. unfold Py.len. induction a as [|x a IH]; simpl; [reflexivity | now rewrite IH]. Qed.

Lemma str_take_drop (n : nat) (s : string) : Py.take n s +:+ Py.drop n s = s.
Proof.
  revert s. induction n as [|n IH]; intros [|c s]; simpl; try reflexivity.
  now rewrite IH.
Qed.

Lemma str_drop_app (a b : string) : Py.drop (Py.len a) (a +:+ b) = b.
Proof. induction a as [|x a IH]; simpl; [now destruct b | exact IH]. Qed.

Lemma str_take_app (a b : string) : Py.take (Py.len a) (a +:+ b) = a.
Proof. induction a as [|x a IH]; simpl; [now destruct b | now rewrite IH]. Qed.

Lemma str_drop_all (n : nat) (s : string) : Py.len s <= n -> Py.drop n s = "".
Proof.
  revert s. induction n as [|n IH]; intros [|c s]; simpl; intros H;
    try reflexivity; try lia. apply IH. unfold Py.len in *. lia.
Qed.

Lemma str_take_all (n : nat) (s : string) : Py.len s <= n -> Py.take n s = s.
Proof.
  revert s. induction n as [|n IH]; intros [|c s]; simpl; intros H;
    try reflexivity; try lia. rewrite IH; [reflexivity|]. unfold Py.len in *. lia.
Qed.

Lemma startswith_leads (s p : string) :
  Py.startswith s p = true <-> Spec.leads p s.
Proof.
  revert s. induction p as [|a p IH]; intros s; simpl.
  - split; [intros _; now exists s | now destruct s].
  - destruct s as [|b s].
    + split; [discriminate | intros [r Hr]; discriminate].
    + simpl. destruct (Ascii.eqb_spec a b) as [->|Hne].
      * rewrite IH. split; intros [r Hr]; exists r.
        -- now rewrite Hr.
        -- now inversion Hr.
      * split; [discriminate | intros [r Hr]; simpl in Hr; congruence].
Qed.

Lemma slice_from_len (p r : string) :
  Py.slice_from (p +:+ r) (Z.of_nat (Py.len p)) = r.
Proof.
  unfold Py.slice_from, Py.clamp.
  destruct (Z.ltb_spec (Z.of_nat (Py.len p)) 0) as [H|_]; [lia|].
  rewrite Nat2Z.id, str_len_app, Nat.min_l by lia. apply str_drop_app.
Qed.

Lemma endswith_trails (s x : string) :
  Py.endswith s x = true <-> Spec.trails x s.
Proof.
  unfold Py.endswith, Spec.trails. split.
  - destruct (Nat.leb_spec (Py.len x) (Py.len s)) as [Hle|]; [|discriminate].
    intros H%String.eqb_eq. exists (Py.take (Py.len s - Py.len x) s).
    transitivity (Py.take (Py.len s - Py.len x) s
                  +:+ Py.drop (Py.len s - Py.len x) s);
      [symmetry; apply str_take_drop | now rewrite H].
  - intros [a ->]. rewrite str_len_app.
    destruct (Nat.leb_spec (Py.len x) (Py.len a + Py.len x)) as [_|]; [|lia].
    replace (Py.len a + Py.len x - Py.len x) with (Py.len a) by lia.
    rewrite str_drop_app. apply String.eqb_refl.
Qed.

Lemma slice_to_neg_len (a x : string) :
  x <> "" -> Py.slice_to (a +:+ x) (- Z.of_nat (Py.len x)) = a.
Proof.
  intros Hx. unfold Py.slice_to, Py.clamp.
  assert (0 < Py.len x) by (destruct x; [contradiction | unfold Py.len; simpl; lia]).
  destruct (Z.ltb_spec (- Z.of_nat (Py.len x)) 0) as [_|]; [|lia].
  rewrite str_len_app.
  replace (Z.to_nat _) with (Py.len a) by lia. apply str_take_app.
Qed.

(** Both halves of a slice at any bound give the string back. *)
Lemma slices_rejoin (s : string) (i : Z) :
  Py.slice_to s i +:+ Py.slice_from s i = s.
Proof. apply str_take_drop. Qed.

Lemma slice_from_zero (s : string) : Py.slice_from s 0 = s.
Proof. reflexivity. Qed.

Lemma contains_nl (c : ascii) : Py.contains Py.nl c = true <-> c = Py.LF.
Proof.
  simpl. destruct (Ascii.eqb_spec c Py.LF); split; congruence.
Qed.

Lemma leads_nl (s : string) : Spec.leads Py.nl s <-> exists t, s = String Py.LF t.
Proof. split; intros [t ->]; now exists t. Qed.

Lemma trails_cons (x : string) (c : ascii) (s : string) :
  Spec.trails x s -> Spec.trails x (String c s).
Proof. intros [a ->]. now exists (String c a). Qed.

Lemma trails_nl_cons (c d : ascii) (t : string) :
  Spec.trails Py.nl (String c (String d t)) -> Spec.trails Py.nl (String d t).
Proof.
  intros [[|x a] Ha]; simpl in Ha; [discriminate|].
  injection Ha as _ Ha. now exists a.
Qed.

(** [lstrip] cuts off a run of line breaks and stops at the first other
    character. *)
Lemma lstrip_nl (s : string) :
  exists l, s = l +:+ Py.lstrip Py.nl s /\ Spec.all_breaks l
            /\ ~ Spec.leads Py.nl (Py.lstrip Py.nl s).
Proof.
  induction s as [|c s (l & Hl & Hall & Hno)].
  - exists "". repeat split. intros [t Ht]%leads_nl. discriminate.
  - cbn [Py.lstrip]. destruct (Py.contains Py.nl c) eqn:Hc.
    + apply contains_nl in Hc as ->. exists (String Py.LF l).
      simpl. rewrite <- Hl. repeat split; assumption.
    + exists "". repeat split. intros [t Ht]%leads_nl.
      injection Ht as -> _. now rewrite (proj2 (contains_nl Py.LF)) in Hc.
Qed.

Lemma not_leads_nl_empty : ~ Spec.leads Py.nl "".
Proof. intros [t Ht]%leads_nl. discriminate. Qed.

Lemma not_trails_nl_empty : ~ Spec.trails Py.nl "".
Proof. intros [[|x a] Ha]; discriminate. Qed.

Lemma not_leads_nl_cons (c : ascii) (s : string) :
  c <> Py.LF -> ~ Spec.leads Py.nl (String c s).
Proof. intros Hc [t Ht]%leads_nl. injection Ht as Hc' _. contradiction. Qed.

Lemma rstrip_nl (s : string) :
  exists r, s = Py.rstrip Py.nl s +:+ r /\ Spec.all_breaks r
            /\ ~ Spec.trails Py.nl (Py.rstrip Py.nl s)
            /\ (~ Spec.leads Py.nl s -> ~ Spec.leads Py.nl (Py.rstrip Py.nl s)).
Proof.
  induction s as [|c s (r & Hr & Hall & Hno & _)].
  - exists "". split; [reflexivity|]. split; [exact I|].
    split; [apply not_trails_nl_empty | auto].
  - cbn [Py.rstrip]. destruct (Py.rstrip Py.nl s) as [|d t] eqn:Hrs.
    + simpl in Hr. subst r. destruct (Ascii.eqb_spec c Py.LF) as [->|Hc].
      * rewrite (proj2 (contains_nl Py.LF) eq_refl). exists (String Py.LF s).
        split; [reflexivity|]. split; [now split|].
        split; [apply not_trails_nl_empty|]. intros _. apply not_leads_nl_empty.
      * assert (Py.contains Py.nl c = false) as ->.
        { destruct (Py.contains Py.nl c) eqn:E; [|reflexivity].
          now apply contains_nl in E. }
        exists s. split; [reflexivity|]. split; [assumption|]. split.
        -- intros [[|x [|y a]] Ha]; simpl in Ha; try discriminate.
           injection Ha as Hc'. contradiction.
        -- intros _. now apply not_leads_nl_cons.
    + exists r. split; [simpl; now rewrite Hr|]. split; [assumption|]. split.
      * intros Ht%trails_nl_cons. contradiction.
      * intros Hs [u Hu]%leads_nl. injection Hu as -> _.
        apply Hs, leads_nl. eauto.
Qed.

Lemma strip_nl (s : string) : Spec.breaks_trimmed s (Py.strip Py.nl s).
Proof.
  unfold Py.strip. destruct (lstrip_nl s) as (l & Hl & Hla & Hlno).
  destruct (rstrip_nl (Py.lstrip Py.nl s)) as (r & Hr & Hra & Hrno & Hkeep).
  exists l, r. repeat split; auto. now rewrite <- Hr.
Qed.

Lemma lstrip_id (s : string) : ~ Spec.leads Py.nl s -> Py.lstrip Py.nl s = s.
Proof.
  destruct s as [|c s]; [reflexivity|]. intros H. cbn [Py.lstrip].
  destruct (Py.contains Py.nl c) eqn:Hc; [|reflexivity].
  apply contains_nl in Hc as ->. destruct H. apply leads_nl. eauto.
Qed.

Lemma rstrip_id (s : string) : ~ Spec.trails Py.nl s -> Py.rstrip Py.nl s = s.
Proof.
  induction s as [|c s IH]; [reflexivity|]. intros H. cbn [Py.rstrip].
  destruct s as [|d t].
  - simpl. destruct (Ascii.eqb_spec c Py.LF) as [->|]; [|reflexivity].
    destruct H. now exists "".
  - rewrite IH; [reflexivity|]. intros Ht. apply H, trails_cons, Ht.
Qed.

Lemma cut_last_some (s a b : string) :
  Py.cut_last Py.LF s = Some (a, b) -> s = a +:+ Py.nl +:+ b /\ Spec.no_break b.
Proof.
  revert a. induction s as [|c s IH]; intros a; cbn [Py.cut_last]; [discriminate|].
  destruct (Py.cut_last Py.LF s) as [[a' b']|] eqn:Hcut.
  - intros [= <- <-]. destruct (IH a' eq_refl) as [-> Hb]. now split.
  - destruct (Ascii.eqb_spec c Py.LF) as [->|]; [|discriminate].
    intros [= <- <-]. split; [reflexivity|].
    clear IH. induction s as [|d s IHs]; [exact I|].
    cbn [Py.cut_last] in Hcut. destruct (Py.cut_last Py.LF s) as [[? ?]|];
      [discriminate|]. destruct (Ascii.eqb_spec d Py.LF); [discriminate|].
    split; auto.
Qed.

Lemma cut_last_none (s : string) :
  Py.cut_last Py.LF s = None -> Spec.no_break s.
Proof.
  induction s as [|c s IH]; [intros; exact I|]. cbn [Py.cut_last].
  destruct (Py.cut_last Py.LF s) as [[? ?]|]; [discriminate|].
  destruct (Ascii.eqb_spec c Py.LF); [discriminate|]. split; auto.
Qed.

Lemma line_prefix_spec (prefix : string) :
  Spec.is_line_prefix prefix (line_prefix prefix).
Proof.
  unfold line_prefix, Py.rsplit1, Spec.is_line_prefix.
  destruct (Py.cut_last Py.LF prefix) as [[a b]|] eqn:Hcut; simpl.
  - apply cut_last_some in Hcut as [-> Hb]. split; [assumption | left; eauto].
  - split; [now apply cut_last_none | now right].
Qed.

Lemma no_break_cut (s : string) : Spec.no_break s -> Py.cut_last Py.LF s = None.
Proof.
  induction s as [|c s IH]; [reflexivity|]. intros [Hc Hs]. cbn [Py.cut_last].
  rewrite (IH Hs). now destruct (Ascii.eqb_spec c Py.LF).
Qed.

Lemma cut_last_app (a lp : string) :
  Spec.no_break lp -> Py.cut_last Py.LF (a +:+ Py.nl +:+ lp) = Some (a, lp).
Proof.
  intros Hlp. induction a as [|c a IH].
  - change (Py.cut_last Py.LF (String Py.LF lp) = Some ("", lp)).
    cbn [Py.cut_last]. now rewrite (no_break_cut _ Hlp).
  - change (Py.cut_last Py.LF (String c (a +:+ Py.nl +:+ lp))
            = Some (String c a, lp)).
    cbn [Py.cut_last]. now rewrite IH.
Qed.

Lemma line_prefix_unique (prefix lp : string) :
  Spec.is_line_prefix prefix lp -> lp = line_prefix prefix.
Proof.
  unfold line_prefix, Py.rsplit1. intros [Hlp [[a ->]| ->]].
  - now rewrite (cut_last_app _ _ Hlp).
  - now rewrite (no_break_cut _ Hlp).
Qed.

Lemma all_breaks_lstrip (r : string) : Spec.all_breaks r -> Py.lstrip Py.nl r = "".
Proof.
  induction r as [|c r IH]; [reflexivity|]. intros [-> Hr]. cbn [Py.lstrip].
  rewrite (proj2 (contains_nl Py.LF) eq_refl). now apply IH.
Qed.

Lemma all_breaks_rstrip (r : string) : Spec.all_breaks r -> Py.rstrip Py.nl r = "".
Proof.
  induction r as [|c r IH]; [reflexivity|]. intros [-> Hr]. cbn [Py.rstrip].
  rewrite (IH Hr). now rewrite (proj2 (contains_nl Py.LF) eq_refl).
Qed.

Lemma lstrip_app_breaks (l x : string) :
  Spec.all_breaks l -> Py.lstrip Py.nl (l +:+ x) = Py.lstrip Py.nl x.
Proof.
  induction l as [|c l IH]; [reflexivity|]. intros [-> Hl]. simpl String.append.
  cbn [Py.lstrip]. rewrite (proj2 (contains_nl Py.LF) eq_refl). now apply IH.
Qed.

Lemma rstrip_app_breaks (x r : string) :
  Spec.all_breaks r -> Py.rstrip Py.nl (x +:+ r) = Py.rstrip Py.nl x.
Proof.
  intros Hr. induction x as [|c x IH]; simpl String.append.
  - now apply all_breaks_rstrip.
  - cbn [Py.rstrip]. now rewrite IH.
Qed.

Lemma strip_unique (s out : string) :
  Spec.breaks_trimmed s out -> out = Py.strip Py.nl s.
Proof.
  intros (l & r & -> & Hl & Hr & Hlead & Htrail). unfold Py.strip.
  rewrite (lstrip_app_breaks _ _ Hl).
  destruct out as [|c out].
  - simpl String.append. now rewrite (all_breaks_lstrip _ Hr).
  - rewrite lstrip_id.
    + rewrite (rstrip_app_breaks _ _ Hr). symmetry. now apply rstrip_id.
    + intros [t Ht]%leads_nl. apply Hlead, leads_nl.
      simpl in Ht. injection Ht as -> _. eauto.
Qed.

End StringFacts.

(** ** Reconciliation *)

Lemma marker_step (reply : string) :
  Spec.marker_removed reply
    (if Py.startswith reply zsh_prefix
     then Py.slice_from reply (Z.of_nat (Py.len zsh_prefix)) else reply).
Proof.
  destruct (Py.startswith reply zsh_prefix) eqn:Hs.
  - apply startswith_leads in Hs as [r ->]. left. now rewrite slice_from_len.
  - right. split; [|reflexivity]. intros H%startswith_leads. congruence.
Qed.

Lemma lead_step (prefix lp s : string) :
  Spec.lead_removed prefix lp s (strip_first_prefix [prefix; lp] s).
Proof.
  cbn [strip_first_prefix]. destruct (Py.startswith s prefix) eqn:Hp.
  - apply startswith_leads in Hp as [r ->]. left. now rewrite slice_from_len.
  - assert (~ Spec.leads prefix s) by (intros H%startswith_leads; congruence).
    destruct (Py.startswith s lp) eqn:Hl.
    + apply startswith_leads in Hl as [r ->]. right; left.
      now rewrite slice_from_len.
    + right; right. repeat split; [assumption|].
      intros H'%startswith_leads. congruence.
Qed.

Lemma trail_step (suffix s : string) :
  Spec.trail_removed suffix s
    (if negb (String.eqb suffix "") && Py.endswith s suffix
     then Py.slice_to s (- Z.of_nat (Py.len suffix)) else s).
Proof.
  destruct (String.eqb_spec suffix "") as [->|Hne]; cbn [negb andb].
  - right. split; [now left | reflexivity].
  - destruct (Py.endswith s suffix) eqn:He.
    + apply endswith_trails in He as [a ->]. left.
      now rewrite slice_to_neg_len.
    + right. split; [right | reflexivity].
      intros H%endswith_trails. congruence.
Qed.

Lemma marker_unique (reply out : string) :
  Spec.marker_removed reply out ->
  out = (if Py.startswith reply zsh_prefix
         then Py.slice_from reply (Z.of_nat (Py.len zsh_prefix)) else reply).
Proof.
  intros [->|[Hno ->]].
  - rewrite (proj2 (startswith_leads _ _)) by (now exists out).
    now rewrite slice_from_len.
  - destruct (Py.startswith reply zsh_prefix) eqn:E; [|reflexivity].
    now apply startswith_leads in E.
Qed.

Lemma lead_unique (prefix lp s out : string) :
  Spec.lead_removed prefix lp s out -> out = strip_first_prefix [prefix; lp] s.
Proof.
  cbn [strip_first_prefix]. intros [->|[[Hno ->]|(Hno & Hno' & ->)]].
  - rewrite (proj2 (startswith_leads _ _)) by (now exists out).
    now rewrite slice_from_len.
  - destruct (Py.startswith (lp +:+ out) prefix) eqn:E;
      [now apply startswith_leads in E|].
    rewrite (proj2 (startswith_leads _ _)) by (now exists out).
    now rewrite slice_from_len.
  - destruct (Py.startswith s prefix) eqn:E; [now apply startswith_leads in E|].
    destruct (Py.startswith s lp) eqn:E'; [now apply startswith_leads in E'|].
    reflexivity.
Qed.

Lemma trail_unique (suffix s out : string) :
  Spec.trail_removed suffix s out ->
  out = (if negb (String.eqb suffix "") && Py.endswith s suffix
         then Py.slice_to s (- Z.of_nat (Py.len suffix)) else s).
Proof.
  intros [[Hne ->]|[[->|Hno] ->]].
  - destruct (String.eqb_spec suffix ""); [contradiction|]. cbn [negb andb].
    rewrite (proj2 (endswith_trails _ _)) by (now exists out).
    now rewrite slice_to_neg_len.
  - reflexivity.
  - destruct (Py.endswith s suffix) eqn:E; [now apply endswith_trails in E|].
    now rewrite andb_false_r.
Qed.

(** C1. The reconciliation applied to a raw completion goes through steps (a)
    to (e) in this order, and its result is the only text they lead to: the
    marker is removed if the reply starts with it; the line prefix is the
    part of the prefix after its last line break (all of it if there is
    none); a leading occurrence of the full prefix, or else of the line
    prefix, is removed, once; a trailing occurrence of a non-empty suffix is
    removed; the line breaks around the text, and nothing else, are trimmed.
    For the buffer "list files" followed by a line break, cursor position 11
    and the reply made of the marker, "list files", a line break and
    "ls -la", the completion written is exactly "ls -la". *)
Theorem reconcile_follows_steps :
  (forall prefix suffix reply out : string,
      Spec.reconciled prefix suffix reply out
      <-> out = reconcile prefix suffix reply)
  /\ main_output ("list files" +:+ Py.nl) 11
       (zsh_prefix +:+ "list files" +:+ Py.nl +:+ "ls -la") = "ls -la".
Proof.
  split; [|reflexivity].
  intros prefix suffix reply out. unfold reconcile. split.
  - intros (s1 & lp & s2 & s3 & Ha & Hb & Hc & Hd & He).
    apply marker_unique in Ha as ->. apply line_prefix_unique in Hb as ->.
    apply lead_unique in Hc as ->. apply trail_unique in Hd as ->.
    now apply strip_unique in He.
  - intros ->. eexists _, (line_prefix prefix), _, _.
    split; [apply marker_step|]. split; [apply line_prefix_spec|].
    split; [apply lead_step|]. split; [apply trail_step|]. apply strip_nl.
Qed.

(** C5. A raw completion that is already final comes back unchanged: when it
    does not begin with the marker, has no leading overlap with the prefix or
    the line prefix, no trailing overlap with a non-empty suffix, and no line
    break around it, [reconcile] returns it as it is. *)
Theorem reconcile_final_unchanged (prefix suffix raw : string)
  (Hmarker : ~ Spec.leads zsh_prefix raw)
  (Hprefix : prefix <> "" -> ~ Spec.leads prefix raw)
  (Hline : line_prefix prefix <> "" -> ~ Spec.leads (line_prefix prefix) raw)
  (Hsuffix : suffix <> "" -> ~ Spec.trails suffix raw)
  (Hlead : ~ Spec.leads Py.nl raw)
  (Htrail : ~ Spec.trails Py.nl raw) :
  reconcile prefix suffix raw = raw.
Proof.
  unfold reconcile.
  assert (Py.startswith raw zsh_prefix = false) as ->.
  { destruct (Py.startswith raw zsh_prefix) eqn:E; [|reflexivity].
    now apply startswith_leads in E. }
  assert (strip_first_prefix [prefix; line_prefix prefix] raw = raw) as ->.
  { assert (forall p, (p <> "" -> ~ Spec.leads p raw) ->
              Py.startswith raw p = true ->
              Py.slice_from raw (Z.of_nat (Py.len p)) = raw) as Hcut.
    { intros p Hp E. destruct p as [|c p]; [apply slice_from_zero|].
      apply startswith_leads in E. now destruct Hp. }
    cbn [strip_first_prefix].
    destruct (Py.startswith raw prefix) eqn:E1; [now apply Hcut|].
    destruct (Py.startswith raw (line_prefix prefix)) eqn:E2;
      [now apply Hcut | reflexivity]. }
  assert (negb (String.eqb suffix "") && Py.endswith raw suffix = false) as ->.
  { destruct (String.eqb_spec suffix "") as [|Hne]; [reflexivity|].
    destruct (Py.endswith raw suffix) eqn:E; [|reflexivity].
    apply endswith_trails in E. now destruct (Hsuffix Hne). }
  unfold Py.strip. rewrite lstrip_id by assumption. now apply rstrip_id.
Qed.

Lemma reconcile_final_unchanged_witness :
  reconcile "echo " " > out.txt" "ls -la" = "ls -la".
Proof.
  apply reconcile_final_unchanged.
  - intros H%startswith_leads. vm_compute in H. discriminate.
  - intros _ H%startswith_leads. vm_compute in H. discriminate.
  - intros _ H%startswith_leads. vm_compute in H. discriminate.
  - intros _ H%endswith_trails. vm_compute in H. discriminate.
  - intros H%startswith_leads. vm_compute in H. discriminate.
  - intros H%endswith_trails. vm_compute in H. discriminate.
Defined.

(** ** Facts about the matcher *)

Section Matcher.

Import Re.

Lemma eat_inv (p : ascii -> bool) (st st' : cursor) :
  In st' (eat p st) ->
  exists c s, rest st = String c s /\ p c = true /\ st' = advance st c s.
Proof.
  unfold eat. destruct (rest st) as [|c s]; [intros []|].
  destruct (p c) eqn:Hp; [|intros []].
  intros [<-|[]]. eauto.
Qed.

Lemma iterate_inv (P : cursor -> cursor -> Prop) body lo hi :
  (forall st, P st st) ->
  (forall a b c, P a b -> P b c -> P a c) ->
  (forall st st', In st' (body st) -> P st st') ->
  forall bound count st st',
    In st' (iterate body lo hi bound count st) -> P st st'.
Proof.
  intros Hrefl Htrans Hbody. induction bound as [|bound IH]; intros count st st'.
  - simpl. destruct (lo <=? count); [intros [<-|[]]; apply Hrefl | intros []].
  - simpl. intros [Hin|Hin]%in_app_or.
    + destruct (below hi count); [|destruct Hin].
      apply in_flat_map in Hin as (x & Hx & Hin).
      apply filter_In in Hx as [Hx _].
      eapply Htrans; [apply Hbody, Hx | eapply IH, Hin].
    + destruct (lo <=? count); [destruct Hin as [<-|[]]; apply Hrefl | destruct Hin].
Qed.

Lemma iterate_consuming body lo hi bound count :
  consuming body -> consuming (iterate body lo hi bound count).
Proof.
  intros Hbody st st'.
  apply (iterate_inv (fun a b => pos a <= pos b
           /\ pos b + Py.len (rest b) = pos a + Py.len (rest a))); [lia|lia|exact Hbody].
Qed.

Lemma iterate_keeps_group body lo hi bound count :
  keeps_group body -> keeps_group (iterate body lo hi bound count).
Proof.
  intros Hbody st st'.
  apply (iterate_inv (fun a b => grp b = grp a)); [auto | congruence | exact Hbody].
Qed.

Lemma ms_consuming (r : regex) : consuming (ms r).
Proof.
  induction r as [c|p|r1 IH1 r2 IH2|r1 IH1 r2 IH2|lo hi r IH|r IH|];
    intros st st'; cbn [ms].
  - intros (c' & s & Hr & _ & ->)%eat_inv. rewrite Hr. unfold Py.len. simpl. lia.
  - intros (c' & s & Hr & _ & ->)%eat_inv. rewrite Hr. unfold Py.len. simpl. lia.
  - intros (x & Hx & Hin)%in_flat_map.
    apply IH1 in Hx. apply IH2 in Hin. lia.
  - intros [Hin|Hin]%in_app_or; [now apply IH1 | now apply IH2].
  - now apply iterate_consuming.
  - intros (x & <- & Hx)%in_map_iff. apply IH in Hx. simpl. lia.
  - destruct (xorb _ _); [intros [<-|[]]; lia | intros []].
Qed.

Lemma ms_keeps_group (r : regex) : group_free r = true -> keeps_group (ms r).
Proof.
  induction r as [c|p|r1 IH1 r2 IH2|r1 IH1 r2 IH2|lo hi r IH|r IH|];
    cbn [group_free]; intros Hfree st st'; cbn [ms].
  - now intros (c' & s & _ & _ & ->)%eat_inv.
  - now intros (c' & s & _ & _ & ->)%eat_inv.
  - apply andb_prop in Hfree as [H1 H2].
    intros (x & Hx & Hin)%in_flat_map.
    rewrite (IH2 H2 _ _ Hin). now apply IH1.
  - apply andb_prop in Hfree as [H1 H2].
    intros [Hin|Hin]%in_app_or; [now apply IH1 | now apply IH2].
  - apply iterate_keeps_group. now apply IH.
  - discriminate.
  - destruct (xorb _ _); [now intros [<-|[]] | intros []].
Qed.

(** Once the bound covers the text ahead, its exact value does not matter:
    the cap never cuts a loop the engine would have continued. *)
Lemma iterate_bound_irrelevant body lo hi :
  consuming body ->
  forall b1 b2 count st,
    Py.len (rest st) <= b1 -> Py.len (rest st) <= b2 ->
    iterate body lo hi b1 count st = iterate body lo hi b2 count st.
Proof.
  intros Hbody.
  assert (forall st, Py.len (rest st) = 0 ->
            List.filter (progressed st) (body st) = []) as Hend.
  { intros st H0.
    destruct (List.filter (progressed st) (body st)) as [|x xs] eqn:E; [reflexivity|].
    assert (In x (List.filter (progressed st) (body st))) as Hx
      by (rewrite E; now left).
    apply filter_In in Hx as [Hx Hp]. apply Hbody in Hx.
    unfold progressed in Hp. apply Nat.ltb_lt in Hp. lia. }
  induction b1 as [|b1 IH]; intros [|b2] count st H1 H2; try reflexivity.
  - simpl. rewrite Hend by (auto; lia). simpl. now destruct (below hi count).
  - simpl. rewrite Hend by (auto; lia). simpl. now destruct (below hi count).
  - simpl. f_equal. destruct (below hi count); [|reflexivity].
    rewrite !flat_map_concat_map. f_equal. apply map_ext_in.
    intros x [Hx Hp]%filter_In. apply Hbody in Hx.
    unfold progressed in Hp. apply Nat.ltb_lt in Hp. apply IH; lia.
Qed.

(** Every item of a scan starts with group 1 unset and ends where the engine's
    match from its start ends. *)
Lemma scan_found (r : regex) (s : string) :
  forall i before skip m,
    In m (scan r i before s skip) ->
    grp (m_from m) = None /\ match_at r (m_from m) = Some (m_to m).
Proof.
  induction s as [|c s IH]; intros i before skip m; cbn [scan].
  - destruct skip; [|intros []].
    destruct (match_at r _) as [e|] eqn:E; [|intros []].
    intros [<-|[]]. now split.
  - destruct skip as [|k]; [|apply IH].
    destruct (match_at r _) as [e|] eqn:E; [|apply IH].
    intros [<-|Hin]; [now split | eapply IH, Hin].
Qed.

Lemma windows_group_free : group_free windows_path_pattern = true.
Proof. reflexivity. Qed.

(** A match the Windows alternative found leaves group 1 unset. *)
Lemma windows_match_item (text : string) (m : found) :
  In m (finditer combined_pattern text) -> windows_match m -> item m = "".
Proof.
  intros [Hnone _]%scan_found [_ Hwin].
  unfold match_at in Hwin.
  destruct (ms windows_path_pattern (m_from m)) as [|e es] eqn:E; [discriminate|].
  injection Hwin as ->.
  assert (In (m_to m) (ms windows_path_pattern (m_from m))) as Hin
    by (rewrite E; now left).
  apply (ms_keeps_group _ windows_group_free) in Hin.
  unfold item. now rewrite Hin, Hnone.
Qed.

End Matcher.

(** ** Path extraction *)

Lemma sanity_check_true (matches : list pyobj) : sanity_check matches = true.
Proof.
  unfold sanity_check, py_all, checks.
  induction matches as [|p matches IH]; [reflexivity | exact IH].
Qed.

Lemma extract_paths_value (text : string) :
  extract_paths text = ([], Re.findall combined_pattern text).
Proof. unfold extract_paths. now rewrite sanity_check_true. Qed.

Lemma script_extract_paths_value (input_string : string) :
  Script.extract_paths input_string =
    ([Repr.of_list Repr.of_str (Re.findall combined_pattern input_string);
      Repr.of_list (Repr.of_list Repr.of_bool)
        (checks (List.map OStr (Re.findall combined_pattern input_string)))],
     Re.findall combined_pattern input_string).
Proof. unfold Script.extract_paths. now rewrite sanity_check_true. Qed.

(** C2. For the input "C:\dir\file.txt" the scan finds one match, which
    spans the whole Windows path, and [extract_paths] returns one entry, the
    empty string: the path itself is not in the returned sequence. *)
Theorem windows_path_not_returned :
  List.map Re.whole (Re.finditer combined_pattern "C:\dir\file.txt")
    = ["C:\dir\file.txt"]
  /\ snd (extract_paths "C:\dir\file.txt") = [""]
  /\ ~ In "C:\dir\file.txt" (snd (extract_paths "C:\dir\file.txt")).
Proof.
  split; [vm_compute; reflexivity|].
  assert (snd (extract_paths "C:\dir\file.txt") = [""]) as H
    by (vm_compute; reflexivity).
  split; [exact H|]. rewrite H. intros [E|[]]. discriminate.
Qed.

(** C6. The guard of the warning branch holds for every list of matches,
    whatever the matches are, because [all] looks at one-element lists; so
    neither [extract_paths] takes the warning branch: the first prints
    nothing and the second prints its two diagnostic lines only, and both
    return the matches. *)
Theorem warning_branch_unreachable :
  (forall matches : list pyobj, sanity_check matches = true)
  /\ (forall text : string,
        extract_paths text = ([], Re.findall combined_pattern text))
  /\ (forall input_string : string,
        Script.extract_paths input_string =
          ([Repr.of_list Repr.of_str (Re.findall combined_pattern input_string);
            Repr.of_list (Repr.of_list Repr.of_bool)
              (checks (List.map OStr (Re.findall combined_pattern input_string)))],
           Re.findall combined_pattern input_string)).
Proof.
  split; [exact sanity_check_true|].
  split; [exact extract_paths_value | exact script_extract_paths_value].
Qed.

(** C10. The sequence [extract_paths] returns has one entry per match, the
    text of the capture group; every match found by the Windows alternative
    contributes the empty string; and for the input "C:\dir\file.txt" alone
    there is one match, by the Windows alternative and spanning the whole
    input, and the result is the one-element sequence holding the empty
    string. *)
Theorem windows_matches_yield_empty :
  (forall text : string,
      snd (extract_paths text)
        = List.map Re.item (Re.finditer combined_pattern text)
      /\ snd (Script.extract_paths text)
        = List.map Re.item (Re.finditer combined_pattern text))
  /\ (forall (text : string) (m : Re.found),
        In m (Re.finditer combined_pattern text) ->
        windows_match m -> Re.item m = "")
  /\ (exists m : Re.found,
        Re.finditer combined_pattern "C:\dir\file.txt" = [m]
        /\ windows_match m /\ Re.whole m = "C:\dir\file.txt")
  /\ extract_paths "C:\dir\file.txt" = ([], [""])
  /\ snd (Script.extract_paths "C:\dir\file.txt") = [""].
Proof.
  split.
  { intros text. now rewrite extract_paths_value, script_extract_paths_value. }
  split; [exact windows_match_item|].
  split.
  { eexists. split; [vm_compute; reflexivity|].
    split; [split|]; vm_compute; reflexivity. }
  split; vm_compute; reflexivity.
Qed.

(** ** Classification *)

Lemma fold_append {A B} (keep : A -> bool) (g : A -> B) (l : list A) (acc : list B) :
  List.fold_left (fun acc x => if keep x then acc ++ [g x] else acc) l acc
    = acc ++ List.map g (List.filter keep l).
Proof.
  revert acc. induction l as [|x l IH]; intros acc; simpl.
  - now rewrite app_nil_r.
  - rewrite IH. destruct (keep x); [|reflexivity].
    simpl. now rewrite <- app_assoc.
Qed.

Lemma extract_valid_dirs_filter fs paths cwd :
  extract_valid_dirs fs paths cwd
    = List.map wrap
        (List.filter (fun p => OsPath.isdir fs (OsPath.join cwd p)) paths).
Proof. unfold extract_valid_dirs. now rewrite (fold_append _ wrap). Qed.

Lemma extract_valid_files_filter fs paths cwd :
  extract_valid_files fs paths cwd
    = List.map wrap
        (List.filter
           (fun p => OsPath.exists_ fs (OsPath.join cwd p)
                     && negb (OsPath.isdir fs (OsPath.join cwd p))) paths).
Proof. unfold extract_valid_files. now rewrite (fold_append _ wrap). Qed.

Lemma in_wrap_filter (keep : string -> bool) (paths : list string) (c : string) :
  In [c] (List.map wrap (List.filter keep paths)) <-> In c paths /\ keep c = true.
Proof.
  rewrite in_map_iff. split.
  - intros (x & [= ->] & Hx). now apply filter_In in Hx.
  - intros H. exists c. split; [reflexivity | now apply filter_In].
Qed.

Lemma filter_sublist {A} (keep : A -> bool) (l : list A) :
  sublist (List.filter keep l) l.
Proof.
  induction l as [|x l IH]; simpl; [constructor|].
  destruct (keep x); now constructor.
Qed.

Lemma map_sublist {A B} (g : A -> B) (l1 l2 : list A) :
  sublist l1 l2 -> sublist (List.map g l1) (List.map g l2).
Proof. induction 1; simpl; now constructor. Qed.

Lemma isdir_exists fs path : OsPath.isdir fs path = true -> OsPath.exists_ fs path = true.
Proof. unfold OsPath.isdir, OsPath.exists_. now destruct (fs !! path) as [[]|]. Qed.

(** C3. For every file system, list of candidates and working directory:
    each output is the list of one-element groups around the candidates that
    pass its test, in input order, so a candidate of the list whose join with
    [cwd] is a directory is in [valid_dirs] as [[c]], one whose join exists
    and is not a directory is in [valid_files] as [[c]], one whose join
    does not exist is in neither, and both outputs are sub-sequences of the
    wrapped input. *)
Theorem classification_correct (fs : gmap string node) (paths : list string)
        (cwd : string) :
  let valid_dirs := extract_valid_dirs fs paths cwd in
  let valid_files := extract_valid_files fs paths cwd in
  (forall c, In c paths -> OsPath.isdir fs (OsPath.join cwd c) = true ->
             In [c] valid_dirs)
  /\ (forall c, In c paths -> OsPath.exists_ fs (OsPath.join cwd c) = true ->
                OsPath.isdir fs (OsPath.join cwd c) = false ->
                In [c] valid_files)
  /\ (forall c, OsPath.exists_ fs (OsPath.join cwd c) = false ->
                ~ In [c] valid_dirs /\ ~ In [c] valid_files)
  /\ (forall group, In group valid_dirs \/ In group valid_files ->
                    exists c, group = [c] /\ In c paths)
  /\ sublist valid_dirs (List.map wrap paths)
  /\ sublist valid_files (List.map wrap paths).
Proof.
  cbv zeta. rewrite extract_valid_dirs_filter, extract_valid_files_filter.
  split; [|split; [|split; [|split; [|split]]]].
  - intros c Hc Hd. now apply in_wrap_filter.
  - intros c Hc He Hd. apply in_wrap_filter. now rewrite He, Hd.
  - intros c Hno. split.
    + intros [_ Hd]%in_wrap_filter. apply isdir_exists in Hd. congruence.
    + intros [_ Hf]%in_wrap_filter. rewrite Hno in Hf. discriminate.
  - intros group [Hg|Hg]; apply in_map_iff in Hg as (c & <- & Hc);
      apply filter_In in Hc as [Hc _]; eauto.
  - apply map_sublist, filter_sublist.
  - apply map_sublist, filter_sublist.
Qed.

(** C4. For every file system, list of candidates and working directory, a
    group placed in [valid_dirs] is not placed in [valid_files]. *)
Theorem classification_disjoint (fs : gmap string node) (paths : list string)
        (cwd : string) (group : list string) :
  In group (extract_valid_dirs fs paths cwd) ->
  ~ In group (extract_valid_files fs paths cwd).
Proof.
  rewrite extract_valid_dirs_filter, extract_valid_files_filter.
  intros (c & <- & Hc)%in_map_iff (c' & [= ->] & Hc')%in_map_iff.
  apply filter_In in Hc as [_ Hd]. apply filter_In in Hc' as [_ Hf].
  rewrite Hd in Hf. now rewrite andb_false_r in Hf.
Qed.

Lemma classification_disjoint_witness :
  In ["src"] (extract_valid_dirs
                {[ "/w/src" := Dir ["a.py"]; "/w/a.txt" := File "x" ]}
                ["src"; "a.txt"; "gone"] "/w")
  /\ ~ In ["src"] (extract_valid_files
                     {[ "/w/src" := Dir ["a.py"]; "/w/a.txt" := File "x" ]}
                     ["src"; "a.txt"; "gone"] "/w").
Proof.
  assert (In ["src"] (extract_valid_dirs
                {[ "/w/src" := Dir ["a.py"]; "/w/a.txt" := File "x" ]}
                ["src"; "a.txt"; "gone"] "/w")) as H
    by (vm_compute; now left).
  split; [exact H | exact (classification_disjoint _ _ _ _ H)].
Defined.

(** ** Effects *)

Lemma effects_added {A} (m : run A) (w : world) (events : list event) :
  log (snd (m w)) = log w ++ events -> effects m w = events.
Proof.
  intros H. unfold effects. rewrite H. apply drop_app_length.
Qed.

Lemma bind_returned {A B} (m : run A) (k : A -> run B) (w w2 : world) (b : B) :
  (m ≫= k) w = (Returned b, w2) ->
  exists a w1, m w = (Returned a, w1) /\ k a w1 = (Returned b, w2).
Proof.
  unfold mbind, run_bind. destruct (m w) as [[a|status|e] w1]; try discriminate.
  eauto.
Qed.

Lemma emit_returned (e : event) (w w1 : world) (u : unit) :
  emit e w = (Returned u, w1) -> w1 = record_event w e.
Proof. now intros [= _ <-]. Qed.

Lemma environ_get_returned (name v : string) (w w1 : world) :
  environ_get name w = (Returned v, w1) ->
  environ w !! name = Some v /\ w1 = w.
Proof.
  unfold environ_get. destruct (environ w !! name); [|discriminate].
  now intros [= -> ->].
Qed.

Lemma dict_get_returned d (key v : string) (w w1 : world) :
  dict_get d key w = (Returned v, w1) -> d !! key = Some v /\ w1 = w.
Proof.
  unfold dict_get. destruct (d !! key); [|discriminate]. now intros [= -> ->].
Qed.

Lemma read_file_returned (path content : string) (w w1 : world) :
  read_file path w = (Returned content, w1) ->
  fs w !! path = Some (File content) /\ w1 = record_event w (FileRead path).
Proof.
  unfold read_file. destruct (fs w !! path) as [[names|text]|]; try discriminate.
  now intros [= -> <-].
Qed.

Lemma listdir_returned (path : string) (names : list string) (w w1 : world) :
  listdir path w = (Returned names, w1) ->
  fs w !! path = Some (Dir names) /\ w1 = record_event w (DirListed path).
Proof.
  unfold listdir. destruct (fs w !! path) as [[entries|text]|]; try discriminate.
  now intros [= -> <-].
Qed.

Lemma write_file_returned (path content : string) (w w1 : world) (u : unit) :
  write_file path content w = (Returned u, w1) -> w1 = put_file w path content.
Proof.
  unfold write_file. destruct (open_error w path); [discriminate|].
  now intros [= _ <-].
Qed.

Lemma chat_send_returned c (model prompt text : string) (w w1 : world) :
  chat_send c model prompt w = (Returned text, w1) ->
  w1 = record_event w (BackendCalled model prompt).
Proof.
  destruct c as [create|send]; [discriminate|]. cbn [chat_send].
  intros (u & w0 & ->%emit_returned & Hk)%bind_returned.
  destruct (send model prompt); [discriminate|]. now injection Hk as _ <-.
Qed.

Lemma chat_create_returned c (model : string) (messages : list message)
      (temperature : option string) (response : chat_response) (w w1 : world) :
  chat_create c model messages temperature w = (Returned response, w1) ->
  w1 = record_event w (BackendCalled model (payload messages)).
Proof.
  destruct c as [create|send]; [|discriminate]. cbn [chat_create].
  intros (u & w0 & ->%emit_returned & Hk)%bind_returned.
  destruct (create model messages temperature); [discriminate|].
  now injection Hk as _ <-.
Qed.

(** A run through the Gemini branch that returns has called the backend
    and done nothing else. *)
Lemma gemini_completion_returned c config (full_command cwd text : string)
      (w w1 : world) :
  get_completion "gemini" c config full_command cwd w = (Returned text, w1) ->
  exists model,
    w1 = record_event w (BackendCalled model (gemini_prompt +:+ full_command)).
Proof.
  unfold get_completion.
  intros (home & w0 & [_ ->]%environ_get_returned & Hk)%bind_returned.
  cbn [String.eqb Ascii.eqb Bool.eqb] in Hk.
  apply bind_returned in Hk as (model & w2 & [_ ->]%dict_get_returned & Hk).
  apply chat_send_returned in Hk. eauto.
Qed.

(** A run through the OpenAI branch that returns has read the history
    file, listed the working directory, called the backend, and written
    [send.txt] and [response.txt], in this order. *)
Lemma openai_completion_returned c config (full_command cwd text : string)
      (w w1 : world) :
  get_completion "openai" c config full_command cwd w = (Returned text, w1) ->
  exists home model request sent received,
    environ w !! "HOME" = Some home
    /\ w1 = put_file
              (put_file
                 (record_event
                    (record_event
                       (record_event w
                          (FileRead (OsPath.join home ".zsh_history")))
                       (DirListed cwd))
                    (BackendCalled model request))
                 "send.txt" sent)
              "response.txt" received.
Proof.
  unfold get_completion.
  intros (home & w0 & [Hhome ->]%environ_get_returned & Hk)%bind_returned.
  cbn [String.eqb Ascii.eqb Bool.eqb] in Hk.
  apply bind_returned in Hk as (history & w2 & [_ ->]%read_file_returned & Hk).
  apply bind_returned in Hk as (names & w3 & [_ ->]%listdir_returned & Hk).
  apply bind_returned in Hk as (model & w4 & [_ ->]%dict_get_returned & Hk).
  apply bind_returned in Hk as (response & w5 & ->%chat_create_returned & Hk).
  apply bind_returned in Hk as (u1 & w6 & ->%write_file_returned & Hk).
  apply bind_returned in Hk as (u2 & w7 & ->%write_file_returned & Hk).
  destruct (first_content response); [|discriminate].
  injection Hk as _ <-. eauto 10.
Qed.

(** ** Configuration bootstrap *)

Lemma create_template_opened (api_type file_path content url : string) (w : world) :
  template_for api_type w = (file_path, content, url) ->
  OsPath.isfile (fs w) file_path = false ->
  open_error w file_path = None ->
  create_template_ini_file api_type w =
    (Exited 1%Z,
     record_event
       (record_event
          (record_event (put_file w file_path content)
             (Printed (Py.capitalize api_type
                       +:+ " API config file created at " +:+ file_path)))
          (Printed "Please edit it and add your API key"))
       (Printed ("If you do not yet have an API key, you can get it from: "
                 +:+ url))).
Proof.
  intros Hsel Hfile Hopen. unfold create_template_ini_file.
  rewrite Hsel, Hfile. cbn [negb].
  unfold mbind, run_bind, write_file. now rewrite Hopen.
Qed.

Lemma create_template_blocked (api_type file_path content url e : string)
      (w : world) :
  template_for api_type w = (file_path, content, url) ->
  OsPath.isfile (fs w) file_path = false ->
  open_error w file_path = Some e ->
  create_template_ini_file api_type w = (Raised e, w).
Proof.
  intros Hsel Hfile Hopen. unfold create_template_ini_file.
  rewrite Hsel, Hfile. cbn [negb].
  unfold mbind, run_bind, write_file. now rewrite Hopen.
Qed.

Lemma create_template_present (api_type file_path content url : string)
      (w : world) :
  template_for api_type w = (file_path, content, url) ->
  OsPath.isfile (fs w) file_path = true ->
  create_template_ini_file api_type w = (Returned tt, w).
Proof.
  intros Hsel Hfile. unfold create_template_ini_file. now rewrite Hsel, Hfile.
Qed.




(** ** What each operation does to the world *)

(** C8, as stated, fails: a completion run with the OpenAI backend returns
    after reading the history file, listing the directory and writing
    [send.txt] and [response.txt] besides the backend call and the output,
    and [extract_paths] of extract_paths.py prints two lines. *)
Lemma completion_path_writes_files :
  fst (main_body "openai" "/tmp" 11 demo_openai demo_config "list files"
         demo_world) = Returned tt
  /\ In (FileWritten "response.txt"
           ("usage" +:+ Py.nl +:+ Py.nl +:+ "m" +:+ Py.nl +:+ Py.nl
            +:+ "choices" +:+ Py.nl +:+ Py.nl))
        (effects (main_body "openai" "/tmp" 11 demo_openai demo_config
                    "list files") demo_world)
  /\ ~ only_call_and_output
         (effects (main_body "openai" "/tmp" 11 demo_openai demo_config
                     "list files") demo_world)
  /\ fst (Script.extract_paths "ls /tmp") = ["['/tmp']"; "[[True]]"].
Proof.
  split; [vm_compute; reflexivity|].
  split; [vm_compute; tauto|].
  split; [|vm_compute; reflexivity].
  intros (model & request & text & H). vm_compute in H. discriminate.
Qed.

(** C8, amended. [extract_paths] of create_completion.py prints nothing and
    returns the matches; [extract_paths] of extract_paths.py returns them
    too and prints the match list and the table of checks on every call; a
    completion run that returns has, with the Gemini backend, called the
    backend once and written the completion out, leaving the files as they
    were, and, with the OpenAI backend, read the history file, listed the
    working directory, called the backend once, written [send.txt] and
    [response.txt], and written the completion out. *)
Theorem effects_by_operation :
  (forall text : string,
      extract_paths text = ([], Re.findall combined_pattern text))
  /\ (forall input_string : string,
        Script.extract_paths input_string =
          ([Repr.of_list Repr.of_str (Re.findall combined_pattern input_string);
            Repr.of_list (Repr.of_list Repr.of_bool)
              (checks (List.map OStr (Re.findall combined_pattern input_string)))],
           Re.findall combined_pattern input_string))
  /\ (forall cwd pos c config buffer w w',
        main_body "gemini" cwd pos c config buffer w = (Returned tt, w') ->
        only_call_and_output
          (effects (main_body "gemini" cwd pos c config buffer) w)
        /\ fs w' = fs w)
  /\ (forall cwd pos c config buffer w w',
        main_body "openai" cwd pos c config buffer w = (Returned tt, w') ->
        exists home model request sent received text,
          effects (main_body "openai" cwd pos c config buffer) w =
            [FileRead (OsPath.join home ".zsh_history"); DirListed cwd;
             BackendCalled model request; FileWritten "send.txt" sent;
             FileWritten "response.txt" received; StdoutWritten text]
          /\ fs w' = <["response.txt" := File received]>
                       (<["send.txt" := File sent]> (fs w))).
Proof.
  split; [exact extract_paths_value|].
  split; [exact script_extract_paths_value|].
  split.
  - intros cwd pos c config buffer w w' Hrun.
    pose proof Hrun as Hinv. unfold main_body in Hinv.
    apply bind_returned in Hinv
      as (text & w1 & [model ->]%gemini_completion_returned & Hout).
    apply emit_returned in Hout.
    split; [|now subst w'].
    exists model, (gemini_prompt +:+ full_command buffer pos),
      (main_output buffer pos text).
    apply effects_added. rewrite Hrun. subst w'. cbn [snd record_event log].
    now rewrite <- app_assoc.
  - intros cwd pos c config buffer w w' Hrun.
    pose proof Hrun as Hinv. unfold main_body in Hinv.
    apply bind_returned in Hinv
      as (text & w1 & Hget & Hout).
    apply openai_completion_returned in Hget
      as (home & model & request & sent & received & _ & ->).
    apply emit_returned in Hout.
    exists home, model, request, sent, received, (main_output buffer pos text).
    split; [|now subst w'].
    apply effects_added. rewrite Hrun. subst w'.
    cbn [snd record_event put_file log]. now rewrite <- !app_assoc.
Qed.

(** The Gemini branch does return on the demonstration world. *)
Lemma gemini_run_returns :
  fst (main_body "gemini" "/tmp" 11 demo_gemini demo_config "list files"
         demo_world) = Returned tt
  /\ effects (main_body "gemini" "/tmp" 11 demo_gemini demo_config "list files")
       demo_world
     = [BackendCalled "m" (gemini_prompt +:+ zsh_prefix +:+ "list files");
        StdoutWritten "ls -la"].
Proof. split; vm_compute; reflexivity. Qed.

(** ** What the backend is handed *)

(** C9. For every buffer and every integer cursor position, inside or
    outside the range from 0 to the length of the buffer, the two slices at
    the cursor concatenate to the buffer, and the text handed to the backend
    call is the marker followed by exactly the buffer: it is the content of
    the one user message of the OpenAI request, and what follows the
    instructions in the Gemini prompt. *)
Theorem split_rejoins_buffer (buffer : string) (cursor_position : Z) :
  buffer_prefix buffer cursor_position +:+ buffer_suffix buffer cursor_position
    = buffer
  /\ full_command buffer cursor_position = zsh_prefix +:+ buffer
  /\ (forall cwd names zsh_history,
        List.filter (fun m => String.eqb (role m) "user")
          (send_messages (full_command buffer cursor_position) cwd names
             zsh_history)
        = [Message "user" (zsh_prefix +:+ buffer)])
  /\ (forall c config cwd w text w',
        get_completion "gemini" c config (full_command buffer cursor_position)
          cwd w = (Returned text, w') ->
        exists model,
          effects (get_completion "gemini" c config
                     (full_command buffer cursor_position) cwd) w
          = [BackendCalled model (gemini_prompt +:+ zsh_prefix +:+ buffer)]).
Proof.
  assert (buffer_prefix buffer cursor_position
            +:+ buffer_suffix buffer cursor_position = buffer) as H
    by apply slices_rejoin.
  assert (full_command buffer cursor_position = zsh_prefix +:+ buffer) as Hfull
    by (unfold full_command; now rewrite str_app_assoc, H).
  split; [exact H|]. split; [exact Hfull|]. rewrite Hfull. split.
  - reflexivity.
  - intros c config cwd w text w' Hrun.
    destruct (gemini_completion_returned _ _ _ _ _ _ _ Hrun) as [model Hw].
    exists model. apply effects_added. rewrite Hrun, Hw. reflexivity.
Qed.

(** ** More on reconciliation *)

Lemma reconcile_trimmed (prefix suffix reply : string) :
  ~ Spec.leads Py.nl (reconcile prefix suffix reply)
  /\ ~ Spec.trails Py.nl (reconcile prefix suffix reply).
Proof.
  unfold reconcile.
  match goal with |- context [Py.strip Py.nl ?s] =>
    destruct (strip_nl s) as (l & r & _ & _ & _ & Hl & Hr) end.
  now split.
Qed.

(** Whatever the prefix, the suffix and the reply, the completion written
    neither begins nor ends with a line break. *)
Theorem reconcile_no_surrounding_breaks (prefix suffix reply : string) :
  ~ Spec.leads Py.nl (reconcile prefix suffix reply)
  /\ ~ Spec.trails Py.nl (reconcile prefix suffix reply).
Proof. apply reconcile_trimmed. Qed.

Lemma marker_step_part (reply : string) :
  exists a,
    reply = a +:+ (if Py.startswith reply zsh_prefix
                   then Py.slice_from reply (Z.of_nat (Py.len zsh_prefix))
                   else reply).
Proof.
  destruct (marker_step reply) as [H|[_ H]].
  - exists zsh_prefix. exact H.
  - exists "". now rewrite H.
Qed.

Lemma lead_step_part (prefix lp s : string) :
  exists a, s = a +:+ strip_first_prefix [prefix; lp] s.
Proof.
  destruct (lead_step prefix lp s) as [H|[[_ H]|(_ & _ & H)]].
  - now exists prefix.
  - now exists lp.
  - exists "". now rewrite H.
Qed.

Lemma trail_step_part (suffix s : string) :
  exists b,
    s = (if negb (String.eqb suffix "") && Py.endswith s suffix
         then Py.slice_to s (- Z.of_nat (Py.len suffix)) else s) +:+ b.
Proof.
  destruct (trail_step suffix s) as [[_ H]|[_ H]].
  - now exists suffix.
  - exists "". now rewrite H, str_app_nil_r.
Qed.

(** The completion written is a contiguous part of the reply: reconciling
    only removes text at the two ends. *)
Theorem reconcile_part_of_reply (prefix suffix reply : string) :
  exists a b, reply = a +:+ reconcile prefix suffix reply +:+ b.
Proof.
  unfold reconcile.
  destruct (marker_step_part reply) as [a1 H1].
  set (s1 := if Py.startswith reply zsh_prefix then _ else _) in *.
  destruct (lead_step_part prefix (line_prefix prefix) s1) as [a2 H2].
  set (s2 := strip_first_prefix _ s1) in *.
  destruct (trail_step_part suffix s2) as [b3 H3].
  set (s3 := if negb _ && _ then _ else _) in *.
  destruct (strip_nl s3) as (l & r & H4 & _).
  exists (a1 +:+ a2 +:+ l), (r +:+ b3).
  rewrite H1, H2, H3, H4 at 1. now rewrite !str_app_assoc.
Qed.

(** A reply that echoes the marker, the prefix and the suffix around a body
    is reduced to that body, trimmed of its surrounding line breaks. *)
Theorem reconcile_echo (prefix suffix body : string) :
  reconcile prefix suffix (zsh_prefix +:+ prefix +:+ body +:+ suffix)
    = Py.strip Py.nl body.
Proof.
  unfold reconcile.
  rewrite (proj2 (startswith_leads _ _)) by (now eexists).
  rewrite slice_from_len. cbn [strip_first_prefix].
  rewrite (proj2 (startswith_leads _ _)) by (now eexists).
  rewrite slice_from_len.
  destruct (String.eqb_spec suffix "") as [->|Hne]; cbn [negb andb].
  - now rewrite str_app_nil_r.
  - rewrite (proj2 (endswith_trails _ _)) by (now eexists).
    now rewrite slice_to_neg_len.
Qed.

(** When the reply does not start with the marker nor with the whole
    prefix but echoes the current line and the suffix around a body, it is
    reduced to that body, trimmed of its surrounding line breaks. *)
Theorem reconcile_line_echo (prefix suffix body : string)
  (Hmarker : ~ Spec.leads zsh_prefix (line_prefix prefix +:+ body +:+ suffix))
  (Hprefix : ~ Spec.leads prefix (line_prefix prefix +:+ body +:+ suffix)) :
  reconcile prefix suffix (line_prefix prefix +:+ body +:+ suffix)
    = Py.strip Py.nl body.
Proof.
  unfold reconcile.
  destruct (Py.startswith _ zsh_prefix) eqn:E1;
    [now apply startswith_leads in E1|].
  cbn [strip_first_prefix].
  destruct (Py.startswith _ prefix) eqn:E2; [now apply startswith_leads in E2|].
  rewrite (proj2 (startswith_leads _ _)) by (now eexists).
  rewrite slice_from_len.
  destruct (String.eqb_spec suffix "") as [->|Hne]; cbn [negb andb].
  - now rewrite str_app_nil_r.
  - rewrite (proj2 (endswith_trails _ _)) by (now eexists).
    now rewrite slice_to_neg_len.
Qed.

Lemma reconcile_line_echo_witness :
  reconcile ("# list" +:+ Py.nl +:+ "ls") " | wc" ("ls" +:+ " -la" +:+ " | wc")
    = Py.strip Py.nl " -la".
Proof.
  apply (reconcile_line_echo ("# list" +:+ Py.nl +:+ "ls") " | wc" " -la").
  - intros H%startswith_leads. vm_compute in H. discriminate.
  - intros H%startswith_leads. vm_compute in H. discriminate.
Defined.

Lemma len_take (n : nat) (s : string) : Py.len (Py.take n s) = Nat.min n (Py.len s).
Proof.
  unfold Py.len. revert s. induction n as [|n IH]; intros [|c s]; simpl;
    try reflexivity. now rewrite IH.
Qed.

Lemma len_drop (n : nat) (s : string) : Py.len (Py.drop n s) = Py.len s - n.
Proof.
  unfold Py.len. revert s. induction n as [|n IH]; intros [|c s]; simpl;
    try reflexivity; try lia. apply IH.
Qed.

(** A cursor position in range cuts the buffer there; a negative one counts
    from the end; one at or past the end makes the whole buffer the prefix,
    and one at or before minus the length makes it the suffix. *)
Theorem cursor_positions (buffer : string) (cursor_position : Z) :
  let n := Z.of_nat (Py.len buffer) in
  ((0 <= cursor_position <= n)%Z ->
     Z.of_nat (Py.len (buffer_prefix buffer cursor_position)) = cursor_position)
  /\ ((- n <= cursor_position < 0)%Z ->
        Z.of_nat (Py.len (buffer_suffix buffer cursor_position))
          = (- cursor_position)%Z)
  /\ ((n <= cursor_position)%Z ->
        buffer_prefix buffer cursor_position = buffer
        /\ buffer_suffix buffer cursor_position = "")
  /\ ((cursor_position <= - n)%Z ->
        buffer_prefix buffer cursor_position = ""
        /\ buffer_suffix buffer cursor_position = buffer).
Proof.
  cbv zeta. unfold buffer_prefix, buffer_suffix, Py.slice_to, Py.slice_from,
    Py.clamp.
  split; [|split; [|split]]; intros H.
  - destruct (Z.ltb_spec cursor_position 0); [lia|]. rewrite len_take. lia.
  - destruct (Z.ltb_spec cursor_position 0); [|lia]. rewrite len_drop. lia.
  - destruct (Z.ltb_spec cursor_position 0); [lia|].
    rewrite Nat.min_r by lia. split; [now apply str_take_all | now apply str_drop_all].
  - destruct (Z.ltb_spec cursor_position 0) as [Hlt|Hge].
    + replace (Z.to_nat _) with 0 by lia. split; [now destruct buffer | reflexivity].
    + assert (Py.len buffer = 0) as H0 by lia.
      destruct buffer; [|discriminate]. now rewrite Nat.min_r by (cbn; lia).
Qed.

(** ** More on classification *)

Lemma filter_none {A} (keep : A -> bool) (l : list A) :
  (forall x, In x l -> keep x = false) -> List.filter keep l = [].
Proof.
  induction l as [|x l IH]; [reflexivity|]. intros H. simpl.
  rewrite (H x) by now left. apply IH. intros y Hy. apply H. now right.
Qed.

(** When none of the candidates exists under the working directory, both
    outputs are empty. *)
Theorem classification_of_missing (fs : gmap string node)
        (paths : list string) (cwd : string)
        (Hmissing : forall p, In p paths -> fs !! OsPath.join cwd p = None) :
  extract_valid_dirs fs paths cwd = []
  /\ extract_valid_files fs paths cwd = [].
Proof.
  rewrite extract_valid_dirs_filter, extract_valid_files_filter.
  split; rewrite filter_none; try reflexivity; intros p Hp;
    unfold OsPath.isdir, OsPath.exists_; now rewrite (Hmissing p Hp).
Qed.

Lemma classification_of_missing_witness :
  extract_valid_dirs {[ "/w/src" := Dir [] ]} ["a"; "b/c"] "/elsewhere" = []
  /\ extract_valid_files {[ "/w/src" := Dir [] ]} ["a"; "b/c"] "/elsewhere" = [].
Proof.
  apply classification_of_missing.
  intros p [<-|[<-|[]]]; vm_compute; reflexivity.
Defined.

Lemma filter_split_length {A} (f g : A -> bool) (l : list A) :
  (forall x, f x = true -> g x = true) ->
  List.length (List.filter f l)
  + List.length (List.filter (fun x => g x && negb (f x)) l)
  = List.length (List.filter g l).
Proof.
  intros Hfg. induction l as [|x l IH]; [reflexivity|]. simpl.
  destruct (f x) eqn:Hf.
  - rewrite (Hfg x Hf). simpl. now rewrite IH.
  - rewrite andb_true_r. destruct (g x); simpl; lia.
Qed.

(** Every candidate that exists lands in exactly one of the two outputs
    and the others in none: together the outputs have as many groups as
    there are existing candidates. *)
Theorem classification_counts (fs : gmap string node) (paths : list string)
        (cwd : string) :
  List.length (extract_valid_dirs fs paths cwd)
  + List.length (extract_valid_files fs paths cwd)
  = List.length
      (List.filter (fun p => OsPath.exists_ fs (OsPath.join cwd p)) paths).
Proof.
  rewrite extract_valid_dirs_filter, extract_valid_files_filter.
  rewrite !length_map.
  apply (filter_split_length
           (fun p => OsPath.isdir fs (OsPath.join cwd p))
           (fun p => OsPath.exists_ fs (OsPath.join cwd p))).
  intros p. apply isdir_exists.
Qed.

Lemma join_absolute (cwd p : string) :
  Py.startswith p "/" = true -> OsPath.join cwd p = p.
Proof. intros H. unfold OsPath.join. now rewrite H. Qed.

Lemma filter_ext_in' {A} (f g : A -> bool) (l : list A) :
  (forall x, In x l -> f x = g x) -> List.filter f l = List.filter g l.
Proof.
  induction l as [|x l IH]; [reflexivity|]. intros H. simpl.
  rewrite (H x) by now left. rewrite IH; [reflexivity|].
  intros y Hy. apply H. now right.
Qed.

(** Candidates that start with a slash are classified as they stand: the
    working directory plays no part. *)
Theorem classification_of_absolute (fs : gmap string node)
        (paths : list string) (cwd cwd' : string)
        (Habs : forall p, In p paths -> Py.startswith p "/" = true) :
  extract_valid_dirs fs paths cwd = extract_valid_dirs fs paths cwd'
  /\ extract_valid_files fs paths cwd = extract_valid_files fs paths cwd'.
Proof.
  rewrite !extract_valid_dirs_filter, !extract_valid_files_filter.
  split; f_equal; apply filter_ext_in'; intros p Hp;
    now rewrite !(join_absolute _ p (Habs p Hp)).
Qed.

Lemma classification_of_absolute_witness :
  extract_valid_dirs {[ "/etc" := Dir []; "/etc/hosts" := File "" ]}
    ["/etc"; "/etc/hosts"] "/home/u"
  = extract_valid_dirs {[ "/etc" := Dir []; "/etc/hosts" := File "" ]}
      ["/etc"; "/etc/hosts"] ""
  /\ extract_valid_files {[ "/etc" := Dir []; "/etc/hosts" := File "" ]}
       ["/etc"; "/etc/hosts"] "/home/u"
     = extract_valid_files {[ "/etc" := Dir []; "/etc/hosts" := File "" ]}
         ["/etc"; "/etc/hosts"] "".
Proof.
  apply classification_of_absolute.
  intros p [<-|[<-|[]]]; reflexivity.
Defined.

(** ** More on path extraction *)

Section Consumed.

Variable c : ascii.
Variable P : ascii -> Prop.

Lemma contains_app (a b : string) :
  Py.contains (a +:+ b) c = Py.contains a c || Py.contains b c.
Proof.
  induction a as [|d a IH]; [reflexivity|].
  change (String d a +:+ b) with (String d (a +:+ b)). cbn [Py.contains].
  rewrite IH. now destruct (Ascii.eqb c d).
Qed.

Lemma chars_app (a b : string) : chars P a -> chars P b -> chars P (a +:+ b).
Proof.
  intros Ha Hb. induction a as [|d a IH]; [exact Hb|].
  destruct Ha as [Hd Ha]. split; [exact Hd | now apply IH].
Qed.

Lemma eats_refl (st : Re.cursor) : eats st "" st.
Proof. split; [reflexivity | cbn; lia]. Qed.

Lemma eats_trans (st st1 st2 : Re.cursor) (a b : string) :
  eats st a st1 -> eats st1 b st2 -> eats st (a +:+ b) st2.
Proof.
  intros [H1 H1'] [H2 H2']. split.
  - now rewrite H1, H2, str_app_assoc.
  - rewrite str_len_app. lia.
Qed.

Lemma consumed_nothing (on : Prop) (st : Re.cursor) : consumed c P false on st st.
Proof. exists "". split; [apply eats_refl|]. split; [discriminate | now intros _]. Qed.

Lemma consumed_then (nd1 nd2 : bool) (on1 on2 : Prop) (st st1 st2 : Re.cursor) :
  consumed c P nd1 on1 st st1 -> consumed c P nd2 on2 st1 st2 ->
  consumed c P (nd1 || nd2) (on1 /\ on2) st st2.
Proof.
  intros (a & Ha & Hn1 & Ho1) (b & Hb & Hn2 & Ho2). exists (a +:+ b).
  split; [now apply (eats_trans _ st1)|]. split.
  - rewrite contains_app. intros [H|H]%orb_prop; [rewrite Hn1|rewrite Hn2];
      auto using orb_true_r.
  - intros [H1 H2]. apply chars_app; auto.
Qed.

Lemma consumed_weaken (nd nd' : bool) (on on' : Prop) (st st' : Re.cursor) :
  (nd' = true -> nd = true) -> (on' -> on) ->
  consumed c P nd on st st' -> consumed c P nd' on' st st'.
Proof. intros Hn Ho (a & Ha & Hna & Hoa). exists a. auto. Qed.

Lemma eat_consumed (p : ascii -> bool) (nd : bool) (on : Prop) st st' :
  (forall d, p d = true -> (nd = true -> c = d) /\ (on -> P d)) ->
  In st' (Re.eat p st) -> consumed c P nd on st st'.
Proof.
  intros Hp (d & s & Hrest & Hd & ->)%eat_inv. exists (String d "").
  destruct (Hp d Hd) as [Hn Ho]. split; [split; [exact Hrest | cbn; lia]|].
  split.
  - intros ->%Hn. cbn. now rewrite Ascii.eqb_refl.
  - intros H. split; [now apply Ho | exact I].
Qed.

Lemma iterate_consumed body lo hi (nd : bool) (on : Prop) :
  (forall st st', In st' (body st) -> consumed c P nd on st st') ->
  forall bound count st st',
    In st' (Re.iterate body lo hi bound count st) ->
    consumed c P ((count <? lo) && nd) on st st'.
Proof.
  intros Hbody.
  assert (forall count st st',
             In st' (if lo <=? count then [st] else []) ->
             consumed c P ((count <? lo) && nd) on st st') as Hstop.
  { intros count st st'. destruct (Nat.leb_spec lo count) as [Hle|]; [|intros []].
    intros [<-|[]].
    apply (consumed_weaken false _ on on); [|auto|apply consumed_nothing].
    intros [H _]%andb_prop. apply Nat.ltb_lt in H. lia. }
  induction bound as [|bound IH]; intros count st st'; cbn [Re.iterate];
    [apply Hstop|].
  intros [Hin|Hin]%in_app_or; [|now apply Hstop].
  destruct (Re.below hi count); [|destruct Hin].
  apply in_flat_map in Hin as (x & [Hx _]%filter_In & Hin).
  apply Hbody in Hx. apply IH in Hin.
  pose proof (consumed_then _ _ _ _ _ _ _ Hx Hin) as Hboth.
  revert Hboth. apply consumed_weaken.
  - intros [_ H]%andb_prop. now rewrite H.
  - tauto.
Qed.

Lemma ms_consumed (r : Re.regex) (st st' : Re.cursor) :
  In st' (Re.ms r st) -> consumed c P (needs c r) (consumes_only P r) st st'.
Proof.
  revert st st'.
  induction r as [d|p|r1 IH1 r2 IH2|r1 IH1 r2 IH2|lo hi r IH|r IH|];
    intros st st'; cbn [Re.ms needs consumes_only].
  - apply eat_consumed. intros d' ->%Ascii.eqb_eq. split; [|auto].
    now intros ->%Ascii.eqb_eq.
  - apply eat_consumed. intros d Hd. split; [discriminate | auto].
  - intros (x & Hx & Hin)%in_flat_map.
    eapply consumed_then; [apply IH1, Hx | apply IH2, Hin].
  - intros [Hin|Hin]%in_app_or.
    + apply (consumed_weaken (needs c r1) _ (consumes_only P r1) _);
        [now intros [H _]%andb_prop | tauto | now apply IH1].
    + apply (consumed_weaken (needs c r2) _ (consumes_only P r2) _);
        [now intros [_ H]%andb_prop | tauto | now apply IH2].
  - intros Hin. apply (iterate_consumed _ _ _ _ _ IH) in Hin. exact Hin.
  - intros (x & <- & Hx)%in_map_iff. apply IH in Hx as (a & [Ha Ha'] & Hrest).
    exists a. split; [split; assumption | exact Hrest].
  - destruct (xorb _ _); [intros [<-|[]]; apply consumed_nothing | intros []].
Qed.

(** A pattern that needs [c] has no match where [c] does not lie ahead. *)
Lemma needs_absent (r : Re.regex) (st : Re.cursor) :
  needs c r = true -> Py.contains (Re.rest st) c = false -> Re.ms r st = [].
Proof.
  intros Hneeds Habsent. destruct (Re.ms r st) as [|st' l] eqn:E; [reflexivity|].
  assert (In st' (Re.ms r st)) as Hin by (rewrite E; now left).
  apply ms_consumed in Hin as (a & [Hrest _] & Hc & _).
  rewrite Hrest, contains_app, (Hc Hneeds) in Habsent. discriminate.
Qed.

End Consumed.

Lemma hd_error_in {A} (l : list A) (x : A) : List.hd_error l = Some x -> In x l.
Proof. destruct l; [discriminate|]. intros [= ->]. now left. Qed.

Lemma eats_take (st st' : Re.cursor) (a : string) :
  eats st a st' -> Py.take (Re.pos st' - Re.pos st) (Re.rest st) = a.
Proof.
  intros [Hrest Hpos]. rewrite Hrest.
  replace (Re.pos st' - Re.pos st) with (Py.len a) by lia. apply str_take_app.
Qed.

Lemma alt_inv (st st' : Re.cursor) :
  In st' (Re.ms combined_pattern st) ->
  In st' (Re.ms unix_path_pattern st) \/ In st' (Re.ms windows_path_pattern st).
Proof. unfold combined_pattern. cbn [Re.ms]. apply in_app_or. Qed.

Lemma group_inv (st st' : Re.cursor) :
  In st' (Re.ms unix_path_pattern st) ->
  exists x, In x (Re.ms (match unix_path_pattern with
                         | Re.Group body => body
                         | other => other
                         end) st)
            /\ st' = Re.set_group st x.
Proof.
  change (Re.ms unix_path_pattern st)
    with (List.map (Re.set_group st)
            (Re.ms (match unix_path_pattern with
                    | Re.Group body => body
                    | other => other
                    end) st)).
  intros (x & <- & Hx)%in_map_iff. eauto.
Qed.

(** Where a match found by [extract_paths] comes from: either the Unix
    alternative, and then its entry is the whole matched text, which holds a
    slash and no white space; or the Windows alternative, and then its entry
    is the empty string. *)
Lemma match_kinds (text : string) (m : Re.found) :
  In m (Re.finditer combined_pattern text) ->
  (Re.item m = Re.whole m
   /\ Py.contains (Re.whole m) "/" = true
   /\ chars (fun c => Re.is_space c = false) (Re.whole m))
  \/ (Re.item m = ""
      /\ In (Re.m_to m) (Re.ms windows_path_pattern (Re.m_from m))).
Proof.
  intros [Hnone Hat]%scan_found. apply hd_error_in in Hat.
  apply alt_inv in Hat as [Hunix|Hwin].
  - left. apply group_inv in Hunix as (x & Hx & Hto).
    pose proof (ms_consumed "/" (fun c => Re.is_space c = false) _ _ _ Hx)
      as (a & Ha & Hslash & Hspace).
    unfold Re.item, Re.whole, Re.span. rewrite Hto. cbn [Re.set_group Re.grp Re.pos].
    rewrite (eats_take _ _ _ Ha). split; [reflexivity|].
    split; [now apply Hslash|]. apply Hspace.
    unfold plus, non_space. cbn.
    repeat split; try reflexivity; intros ch H; now apply negb_true_iff in H.
  - right. split; [|exact Hwin].
    apply (ms_keeps_group _ windows_group_free) in Hwin.
    unfold Re.item. now rewrite Hwin, Hnone.
Qed.

(** Each entry [extract_paths] returns is either empty or a text with a
    slash in it and no white space. *)
Theorem entries_have_slash_no_space (text x : string)
        (Hin : In x (snd (extract_paths text))) :
  x = ""
  \/ (Py.contains x "/" = true /\ chars (fun c => Re.is_space c = false) x).
Proof.
  rewrite extract_paths_value in Hin. cbn [snd] in Hin.
  apply in_map_iff in Hin as (m & <- & Hm).
  destruct (match_kinds _ _ Hm) as [(-> & H1 & H2)|[-> _]]; auto.
Qed.

Lemma entries_have_slash_no_space_witness :
  "/tmp" = ""
  \/ (Py.contains "/tmp" "/" = true
      /\ chars (fun c => Re.is_space c = false) "/tmp").
Proof.
  apply (entries_have_slash_no_space "cd /tmp").
  vm_compute. now left.
Defined.

Lemma in_order_prepend (l : list string) (w b : string) :
  in_order l b -> in_order l (w +:+ b).
Proof.
  destruct l as [|x l]; [auto|]. intros (a & b' & -> & H).
  exists (w +:+ a), b'. split; [now rewrite str_app_assoc | exact H].
Qed.

Lemma scan_in_order (r : Re.regex) (s : string) :
  forall i before skip,
    in_order (List.map Re.whole (Re.scan r i before s skip)) (Py.drop skip s).
Proof.
  induction s as [|ch s IH]; intros i before skip; cbn [Re.scan].
  - destruct skip; [|exact I].
    destruct (Re.match_at r _) as [e|]; [|exact I].
    exists "", "". split; [|exact I]. unfold Re.whole. cbn. now destruct (Re.span _).
  - destruct skip as [|k]; [|apply IH].
    destruct (Re.match_at r _) as [e|]; cbn [Py.drop].
    + cbn [List.map]. unfold Re.whole at 1, Re.span. cbn [Re.m_from Re.m_to Re.pos Re.rest].
      exists "", (Py.drop (Re.pos e - i) (String ch s)).
      split; [cbn; now rewrite str_take_drop|].
      destruct (Re.pos e - i) as [|k] eqn:E.
      * change (0 - 1) with 0.
        apply (in_order_prepend _ (String ch "")), (IH _ _ 0).
      * replace (S k - 1) with k by lia. apply IH.
    + apply (in_order_prepend _ (String ch "")), (IH _ _ 0).
Qed.

Lemma in_order_part (l : list string) (text x : string) :
  in_order l text -> In x l -> exists a b, text = a +:+ x +:+ b.
Proof.
  revert text. induction l as [|y l IH]; intros text Hl []; subst;
    destruct Hl as (a & b & -> & Hrest).
  - eauto.
  - destruct (IH _ Hrest H) as (a' & b' & ->).
    exists (a +:+ y +:+ a'), b'. now rewrite !str_app_assoc.
Qed.

Lemma in_order_shrink {A} (f g : A -> string) (l : list A) (text : string) :
  (forall m, In m l -> exists a b, g m = a +:+ f m +:+ b) ->
  in_order (List.map g l) text -> in_order (List.map f l) text.
Proof.
  revert text. induction l as [|m l IH]; intros text Hsub; [auto|].
  cbn [List.map in_order]. intros (a & b & -> & Hrest).
  destruct (Hsub m) as (a' & b' & Hg); [now left|].
  exists (a +:+ a'), (b' +:+ b). split.
  - rewrite Hg. now rewrite !str_app_assoc.
  - apply in_order_prepend, IH; [|exact Hrest].
    intros m' Hm'. apply Hsub. now right.
Qed.

(** The entries [extract_paths] returns occur in the input text one after
    the other, in the order returned and without overlap; so each of them is
    a part of the input. *)
Theorem entries_in_order (text : string) :
  in_order (snd (extract_paths text)) text
  /\ in_order (snd (Script.extract_paths text)) text.
Proof.
  rewrite extract_paths_value, script_extract_paths_value. cbn [snd].
  assert (in_order (Re.findall combined_pattern text) text) as H; [|now split].
  unfold Re.findall.
  apply (in_order_shrink Re.item Re.whole).
  - intros m Hm. destruct (match_kinds _ _ Hm) as [(-> & _)|[-> _]].
    + exists "", "". now rewrite str_app_nil_r.
    + exists "", (Re.whole m). reflexivity.
  - apply (scan_in_order combined_pattern text 0 None 0).
Qed.

Lemma scan_nothing (r : Re.regex) (s : string) :
  (forall st, (exists a, s = a +:+ Re.rest st) -> Re.match_at r st = None) ->
  forall i before skip, Re.scan r i before s skip = [].
Proof.
  induction s as [|ch s IH]; intros Hnone i before skip; cbn [Re.scan].
  - destruct skip; [|reflexivity]. rewrite Hnone; [reflexivity|]. now exists "".
  - assert (forall i before skip, Re.scan r i before s skip = []) as Htail.
    { apply IH. intros st [a ->]. apply Hnone. now exists (String ch a). }
    destruct skip; [|apply Htail].
    rewrite Hnone; [apply Htail|]. now exists "".
Qed.

(** On a text without a slash every entry is the empty string, and on a
    text with neither a slash nor a colon there is no entry at all. *)
Theorem no_slash_no_path (text : string)
        (Hslash : Py.contains text "/" = false) :
  (forall x, In x (snd (extract_paths text)) -> x = "")
  /\ (Py.contains text ":" = false -> snd (extract_paths text) = []).
Proof.
  rewrite extract_paths_value. cbn [snd]. unfold Re.findall.
  assert (forall st, (exists a, text = a +:+ Re.rest st) ->
                     Re.ms unix_path_pattern st = []) as Hunix.
  { intros st [a ->]. apply (needs_absent "/" (fun _ => True)); [reflexivity|].
    rewrite contains_app in Hslash. now apply orb_false_elim in Hslash. }
  split.
  - intros x (m & <- & Hm)%in_map_iff.
    destruct (match_kinds _ _ Hm) as [(_ & Hc & _)|[-> _]]; [|reflexivity].
    exfalso.
    destruct (in_order_part _ text (Re.whole m)
                (scan_in_order combined_pattern text 0 None 0))
      as (a & b & Htext); [now apply in_map|].
    rewrite Htext, !contains_app, Hc in Hslash.
    now rewrite orb_true_r in Hslash.
  - intros Hcolon. unfold Re.finditer. rewrite scan_nothing; [reflexivity|].
    intros st Hst. unfold Re.match_at, combined_pattern. cbn [Re.ms].
    rewrite (Hunix st Hst). destruct Hst as [a ->].
    rewrite (needs_absent ":" (fun _ => True)); [reflexivity|reflexivity|].
    rewrite contains_app in Hcolon. now apply orb_false_elim in Hcolon.
Qed.

(** ** Bounds on what a run does *)

Lemma calls_app (a b : list event) : calls (a ++ b) = calls a + calls b.
Proof. unfold calls. now rewrite List.filter_app, List.length_app. Qed.

Lemma quiet_unchanged {A} (m : run A) (n : nat) :
  (forall w, snd (m w) = w) -> quiet n m.
Proof.
  intros H w. rewrite H. repeat split. exists []. rewrite app_nil_r.
  split; [reflexivity | cbn; lia].
Qed.

Lemma quiet_weaken {A} (n n' : nat) (m : run A) : n <= n' -> quiet n m -> quiet n' m.
Proof.
  intros Hle H w. destruct (H w) as (He & Hp & events & Hl & Hc).
  repeat split; try assumption. exists events. split; [assumption | lia].
Qed.

Lemma quiet_bind {A B} (n k : nat) (m : run A) (f : A -> run B) :
  quiet n m -> (forall a, quiet k (f a)) -> quiet (n + k) (m ≫= f).
Proof.
  intros Hm Hf w. unfold mbind, run_bind.
  destruct (Hm w) as (He & Hp & events & Hl & Hc).
  destruct (m w) as [[a|status|e] w1]; cbn [snd] in *.
  - destruct (Hf a w1) as (He' & Hp' & events' & Hl' & Hc').
    split; [congruence|]. split; [congruence|]. exists (events ++ events').
    rewrite Hl', Hl, calls_app, app_assoc. split; [reflexivity | lia].
  - repeat split; try assumption. exists events. split; [assumption | lia].
  - repeat split; try assumption. exists events. split; [assumption | lia].
Qed.

Lemma quiet_emit (e : event) : quiet (if is_call e then 1 else 0) (emit e).
Proof.
  intros w. repeat split. exists [e]. split; [reflexivity|].
  unfold calls. cbn. now destruct (is_call e).
Qed.

Lemma quiet_write (path content : string) : quiet 0 (write_file path content).
Proof.
  intros w. unfold write_file.
  destruct (open_error w path); cbn [snd].
  - repeat split. exists []. rewrite app_nil_r. now split.
  - repeat split. exists [FileWritten path content]. now split.
Qed.

Lemma quiet_read (path : string) : quiet 0 (read_file path).
Proof.
  intros w. unfold read_file.
  destruct (fs w !! path) as [[names|text]|]; cbn [snd];
    try (repeat split; exists [FileRead path]; now split);
    repeat split; exists []; rewrite app_nil_r; now split.
Qed.

Lemma quiet_listdir (path : string) : quiet 0 (listdir path).
Proof.
  intros w. unfold listdir.
  destruct (fs w !! path) as [[names|text]|]; cbn [snd];
    try (repeat split; exists [DirListed path]; now split);
    repeat split; exists []; rewrite app_nil_r; now split.
Qed.

Lemma quiet_environ_get (name : string) : quiet 0 (environ_get name).
Proof.
  apply quiet_unchanged. intros w. unfold environ_get.
  now destruct (environ w !! name).
Qed.

Lemma quiet_dict_get d (key : string) : quiet 0 (dict_get d key).
Proof. apply quiet_unchanged. intros w. unfold dict_get. now destruct (d !! key). Qed.

Lemma quiet_section d (name : string) : quiet 0 (dict_get_section d name).
Proof.
  apply quiet_unchanged. intros w. unfold dict_get_section.
  now destruct (d !! name).
Qed.

Lemma quiet_construct {A} (made : string + A) : quiet 0 (construct made).
Proof. apply quiet_unchanged. intros w. now destruct made. Qed.

Lemma quiet_chat_create c model messages temperature :
  quiet 1 (chat_create c model messages temperature).
Proof.
  destruct c as [create|send]; cbn [chat_create]; [|now apply quiet_unchanged].
  apply (quiet_bind 1 0); [apply (quiet_emit (BackendCalled _ _))|].
  intros _. apply quiet_unchanged. intros w.
  now destruct (create model messages temperature).
Qed.

Lemma quiet_chat_send c model prompt : quiet 1 (chat_send c model prompt).
Proof.
  destruct c as [create|send]; cbn [chat_send]; [now apply quiet_unchanged|].
  apply (quiet_bind 1 0); [apply (quiet_emit (BackendCalled _ _))|].
  intros _. apply quiet_unchanged. intros w. now destruct (send model prompt).
Qed.

Lemma quiet_get_completion api c config full_command cwd :
  quiet 1 (get_completion api c config full_command cwd).
Proof.
  unfold get_completion.
  apply (quiet_bind 0 1); [apply quiet_environ_get|]. intros home.
  destruct (String.eqb api "openai").
  - apply (quiet_bind 0 1); [apply quiet_read|]. intros history.
    apply (quiet_bind 0 1); [apply quiet_listdir|]. intros names.
    apply (quiet_bind 0 1); [apply quiet_dict_get|]. intros model.
    apply (quiet_bind 1 0); [apply quiet_chat_create|]. intros response.
    apply (quiet_bind 0 0); [apply quiet_write|]. intros _.
    apply (quiet_bind 0 0); [apply quiet_write|]. intros _.
    apply quiet_unchanged. intros w. now destruct (first_content response).
  - apply (quiet_bind 0 1); [apply quiet_dict_get|]. intros model.
    apply quiet_chat_send.
Qed.

Lemma quiet_main_body api cwd pos c config buffer :
  quiet 1 (main_body api cwd pos c config buffer).
Proof.
  unfold main_body.
  apply (quiet_bind 1 0); [apply quiet_get_completion|]. intros completion.
  apply (quiet_emit (StdoutWritten _)).
Qed.

Lemma quiet_create_template api : quiet 0 (create_template_ini_file api).
Proof.
  intros w. unfold create_template_ini_file.
  destruct (template_for api w) as [[file_path content] url].
  destruct (negb (OsPath.isfile (fs w) file_path)).
  - revert w. change (@quiet unit 0 (write_file file_path content ≫= λ _,
      print (Py.capitalize api +:+ " API config file created at " +:+ file_path)
      ≫= λ _, print "Please edit it and add your API key"
      ≫= λ _, print ("If you do not yet have an API key, you can get it from: "
                     +:+ url) ≫= λ _, sys_exit 1%Z)).
    apply (quiet_bind 0 0); [apply quiet_write|]. intros _.
    apply (quiet_bind 0 0); [apply (quiet_emit (Printed _))|]. intros _.
    apply (quiet_bind 0 0); [apply (quiet_emit (Printed _))|]. intros _.
    apply (quiet_bind 0 0); [apply (quiet_emit (Printed _))|]. intros _.
    now apply quiet_unchanged.
  - cbn [snd]. repeat split. exists []. rewrite app_nil_r. now split.
Qed.

Section LibrariesFacts.

Variable parse_config : string -> string + gmap string (gmap string string).
Variable make_openai : string -> string -> option string -> string + client.
Variable configure_genai : string -> string + client.

Lemma quiet_config_read (path : string) : quiet 0 (config_read parse_config path).
Proof.
  intros w. unfold config_read.
  destruct (fs w !! path) as [[names|text]|]; cbn [snd];
    try (repeat split; exists []; rewrite app_nil_r; now split).
  destruct (parse_config text); cbn [snd];
    repeat split; exists [FileRead path]; now split.
Qed.

Lemma quiet_initialize_api api :
  quiet 0 (initialize_api parse_config make_openai configure_genai api).
Proof.
  unfold initialize_api.
  apply (quiet_bind 0 0); [apply quiet_create_template|]. intros _.
  apply (quiet_bind 0 0); [now apply quiet_unchanged|]. intros constants.
  destruct (String.eqb api "openai").
  - apply (quiet_bind 0 0); [apply quiet_config_read|]. intros config.
    apply (quiet_bind 0 0); [apply quiet_section|]. intros section.
    apply (quiet_bind 0 0); [apply quiet_dict_get|]. intros secret_key.
    apply (quiet_bind 0 0); [apply quiet_construct|]. intros c.
    now apply quiet_unchanged.
  - apply (quiet_bind 0 0); [apply quiet_config_read|]. intros config.
    apply (quiet_bind 0 0); [apply quiet_section|]. intros section.
    apply (quiet_bind 0 0); [apply quiet_dict_get|]. intros api_key.
    apply (quiet_bind 0 0); [apply quiet_construct|]. intros c.
    now apply quiet_unchanged.
Qed.

(** Whatever the arguments, the input, the configuration, the libraries and
    the outcome, a run of [main] calls the backend at most once, only adds
    to the log, and leaves the environment variables as they were. *)
Theorem main_calls_backend_at_most_once
        (openai_lib genai_lib : bool) (args : arguments) (stdin : string) :
  quiet 1 (main parse_config make_openai configure_genai
             openai_lib genai_lib args stdin).
Proof.
  unfold main.
  destruct (String.eqb (arg_api args) "openai" && negb openai_lib).
  { apply (quiet_bind 0 1); [apply (quiet_emit (Printed _))|]. intros _.
    now apply quiet_unchanged. }
  destruct (String.eqb (arg_api args) "gemini" && negb genai_lib).
  { apply (quiet_bind 0 1); [apply (quiet_emit (Printed _))|]. intros _.
    now apply quiet_unchanged. }
  apply (quiet_bind 0 1); [apply quiet_initialize_api|]. intros initialized.
  apply quiet_main_body.
Qed.

End LibrariesFacts.

(** ** Which files a run changes *)

Lemma touches_unchanged {A} (paths : list string) (m : run A) :
  (forall w, fs (snd (m w)) = fs w) -> touches paths m.
Proof. intros H w q _. now rewrite H. Qed.

Lemma touches_bind {A B} (paths : list string) (m : run A) (f : A -> run B) :
  touches paths m -> (forall a, touches paths (f a)) -> touches paths (m ≫= f).
Proof.
  intros Hm Hf w q Hq. unfold mbind, run_bind.
  specialize (Hm w q Hq). destruct (m w) as [[a|status|e] w1]; cbn [snd] in *;
    try assumption.
  now rewrite (Hf a w1 q Hq).
Qed.

Lemma touches_write (paths : list string) (path content : string) :
  In path paths -> touches paths (write_file path content).
Proof.
  intros Hin w q Hq. unfold write_file.
  destruct (open_error w path); cbn [snd put_file fs]; [reflexivity|].
  apply lookup_insert_ne. intros ->. contradiction.
Qed.

Lemma touches_read (paths : list string) (path : string) :
  touches paths (read_file path).
Proof.
  apply touches_unchanged. intros w. unfold read_file.
  now destruct (fs w !! path) as [[names|text]|].
Qed.

Lemma touches_listdir (paths : list string) (path : string) :
  touches paths (listdir path).
Proof.
  apply touches_unchanged. intros w. unfold listdir.
  now destruct (fs w !! path) as [[names|text]|].
Qed.

Lemma touches_chat_create paths c model messages temperature :
  touches paths (chat_create c model messages temperature).
Proof.
  apply touches_unchanged. intros w. destruct c as [create|send]; [|reflexivity].
  cbn [chat_create]. unfold mbind, run_bind. cbn.
  now destruct (create model messages temperature).
Qed.

Lemma touches_chat_send paths c model prompt :
  touches paths (chat_send c model prompt).
Proof.
  apply touches_unchanged. intros w. destruct c as [create|send]; [reflexivity|].
  cbn [chat_send]. unfold mbind, run_bind. cbn.
  now destruct (send model prompt).
Qed.

Lemma touches_environ_get paths name : touches paths (environ_get name).
Proof.
  apply touches_unchanged. intros w. unfold environ_get.
  now destruct (environ w !! name).
Qed.

Lemma touches_dict_get paths d key : touches paths (dict_get d key).
Proof.
  apply touches_unchanged. intros w. unfold dict_get. now destruct (d !! key).
Qed.

(** Whatever the outcome, a completion request changes no file other than
    [send.txt] and [response.txt], and with the Gemini backend it changes no
    file at all. *)
Theorem completion_files_touched api c config (full_command cwd : string) :
  touches ["send.txt"; "response.txt"]
    (get_completion api c config full_command cwd)
  /\ touches [] (get_completion "gemini" c config full_command cwd).
Proof.
  split; unfold get_completion.
  - apply touches_bind; [apply touches_environ_get|]. intros home.
    destruct (String.eqb api "openai").
    + apply touches_bind; [apply touches_read|]. intros history.
      apply touches_bind; [apply touches_listdir|]. intros names.
      apply touches_bind; [apply touches_dict_get|]. intros model.
      apply touches_bind; [apply touches_chat_create|]. intros response.
      apply touches_bind; [apply touches_write; now left|]. intros _.
      apply touches_bind; [apply touches_write; right; now left|]. intros _.
      apply touches_unchanged. intros w. now destruct (first_content response).
    + apply touches_bind; [apply touches_dict_get|]. intros model.
      apply touches_chat_send.
  - apply touches_bind; [apply touches_environ_get|]. intros home.
    cbn [String.eqb Ascii.eqb Bool.eqb].
    apply touches_bind; [apply touches_dict_get|]. intros model.
    apply touches_chat_send.
Qed.

(** Whatever the backend, the request, the configuration and the outcome,
    a completion request calls the backend at most once, only adds to the
    log and leaves the environment variables as they were. *)
Theorem completion_calls_at_most_once api c config (full_command cwd : string) :
  quiet 1 (get_completion api c config full_command cwd).
Proof. apply quiet_get_completion. Qed.

(** Without [HOME] in the environment a completion request raises
    [KeyError] before anything else happens, with either backend. *)
Theorem completion_needs_home api c config (full_command cwd : string)
        (w : world) (Hhome : environ w !! "HOME" = None) :
  get_completion api c config full_command cwd w = (Raised "KeyError", w).
Proof.
  unfold get_completion, mbind, run_bind, environ_get. now rewrite Hhome.
Qed.

Lemma completion_needs_home_witness :
  get_completion "gemini" demo_gemini demo_config "ls" "/tmp"
    {| environ := ∅; pw_dir := None; fs := ∅; refused := ∅; log := [] |}
  = (Raised "KeyError", {| environ := ∅; pw_dir := None; fs := ∅; refused := ∅; log := [] |}).
Proof. apply completion_needs_home. reflexivity. Defined.

(** When the OpenAI call fails, the request does not return and no file has
    been written: [send.txt] and [response.txt] are written only after the
    backend has answered. *)
Theorem failed_call_writes_nothing
        (create : string -> list message -> option string -> string + chat_response)
        config (full_command cwd e : string) (w : world)
        (Hfail : forall model messages temperature,
            create model messages temperature = inl e) :
  fs (snd (get_completion "openai" (OpenAIClient create) config
             full_command cwd w)) = fs w
  /\ forall text,
       fst (get_completion "openai" (OpenAIClient create) config
              full_command cwd w) <> Returned text.
Proof.
  assert (forall model messages temperature (rest : chat_response -> run string) w0,
             (chat_create (OpenAIClient create) model messages temperature
                ≫= rest) w0
             = (Raised e, record_event w0 (BackendCalled model (payload messages))))
    as Hstop.
  { intros model messages temperature rest w0.
    cbn [chat_create]. unfold mbind, run_bind. cbn [emit].
    now rewrite Hfail. }
  split.
  - assert (touches [] (get_completion "openai" (OpenAIClient create) config
                          full_command cwd)) as Htouch.
    { unfold get_completion.
      apply touches_bind; [apply touches_environ_get|]. intros home.
      cbn [String.eqb Ascii.eqb Bool.eqb].
      apply touches_bind; [apply touches_read|]. intros history.
      apply touches_bind; [apply touches_listdir|]. intros names.
      apply touches_bind; [apply touches_dict_get|]. intros model.
      apply touches_unchanged. intros w0. now rewrite Hstop. }
    apply map_eq. intros q. apply Htouch. intros [].
  - intros text Hfst.
    destruct (get_completion "openai" (OpenAIClient create) config
                full_command cwd w) as [o w1] eqn:Hrun.
    cbn [fst] in Hfst. subst o. unfold get_completion in Hrun.
    apply bind_returned in Hrun as (home & w0 & _ & Hk).
    cbn [String.eqb Ascii.eqb Bool.eqb] in Hk.
    apply bind_returned in Hk as (history & w2 & _ & Hk).
    apply bind_returned in Hk as (names & w3 & _ & Hk).
    apply bind_returned in Hk as (model & w4 & _ & Hk).
    rewrite Hstop in Hk. discriminate.
Qed.

Lemma failed_call_writes_nothing_witness :
  fs (snd (get_completion "openai" (OpenAIClient (fun _ _ _ => inl "APIError"))
             demo_config "ls" "/tmp" demo_world)) = fs demo_world
  /\ forall text,
       fst (get_completion "openai" (OpenAIClient (fun _ _ _ => inl "APIError"))
              demo_config "ls" "/tmp" demo_world) <> Returned text.
Proof. apply (failed_call_writes_nothing _ _ _ _ "APIError"). reflexivity. Defined.

(** ** More on the configuration bootstrap *)

Lemma create_template_returned (api_type : string) (w w1 : world) (u : unit) :
  create_template_ini_file api_type w = (Returned u, w1) ->
  w1 = w /\ exists old, fs w !! fst (fst (template_for api_type w)) = Some (File old).
Proof.
  unfold create_template_ini_file.
  destruct (template_for api_type w) as [[file_path content] url]. cbn [fst].
  unfold OsPath.isfile.
  destruct (fs w !! file_path) as [[names|old]|] eqn:Hat; cbn [negb].
  - unfold mbind, run_bind, write_file.
    destruct (open_error w file_path); discriminate.
  - intros [= _ <-]. eauto.
  - unfold mbind, run_bind, write_file.
    destruct (open_error w file_path); discriminate.
Qed.

Lemma template_for_same (api_type : string) (w w' : world) :
  environ w' = environ w -> pw_dir w' = pw_dir w ->
  template_for api_type w' = template_for api_type w.
Proof.
  intros He Hp. unfold template_for, OPENAI_API_KEYS_LOCATION,
    GEMINI_API_KEYS_LOCATION, CONFIG_DIR, OsPath.expanduser_config.
  now rewrite He, Hp.
Qed.

(** When the configuration file is absent and its path can be opened,
    the run that creates the template is followed by a second run that
    finds the file and returns at once, changing nothing. *)
Theorem template_second_run
        (api_type file_path content url : string) (w : world)
        (Hsel : template_for api_type w = (file_path, content, url))
        (Habsent : OsPath.isfile (fs w) file_path = false)
        (Hopen : open_error w file_path = None) :
  create_template_ini_file api_type (snd (create_template_ini_file api_type w))
  = (Returned tt, snd (create_template_ini_file api_type w)).
Proof.
  rewrite (create_template_opened _ _ _ _ _ Hsel Habsent Hopen). cbn [snd].
  apply (create_template_present _ file_path content url).
  - now rewrite (template_for_same api_type w).
  - unfold OsPath.isfile. cbn [record_event put_file fs].
    now rewrite lookup_insert_eq.
Qed.

Lemma template_second_run_witness :
  create_template_ini_file "gemini"
    (snd (create_template_ini_file "gemini" demo_fresh))
  = (Returned tt, snd (create_template_ini_file "gemini" demo_fresh)).
Proof.
  apply (template_second_run "gemini" "/home/u/.config/geminiapirc"
           gemini_template "Google AI Studio"); reflexivity.
Defined.

Lemma str_app_inv_head (a x y : string) : a +:+ x = a +:+ y -> x = y.
Proof.
  induction a as [|ch a IH]; [auto|]. intros H.
  change (String ch (a +:+ x) = String ch (a +:+ y)) in H.
  injection H as H. auto.
Qed.

(** The two backends keep their keys in different files, and creating the
    template of one changes no other path: bootstrapping one backend never
    provides the file of the other. *)
Theorem template_files_apart (api_type : string) (w : world) :
  OPENAI_API_KEYS_LOCATION w <> GEMINI_API_KEYS_LOCATION w
  /\ forall q, q <> fst (fst (template_for api_type w)) ->
               fs (snd (create_template_ini_file api_type w)) !! q = fs w !! q.
Proof.
  split.
  - unfold OPENAI_API_KEYS_LOCATION, GEMINI_API_KEYS_LOCATION, OsPath.join.
    cbn [Py.startswith Ascii.eqb Bool.eqb].
    destruct (String.eqb (CONFIG_DIR w) ""); [discriminate|].
    destruct (OsPath.last_char (CONFIG_DIR w)) as [ch|];
      [destruct (Ascii.eqb_spec ch "/") as [->|Hne]|].
    + intros H%str_app_inv_head. discriminate.
    + assert (forall a b : string,
                 match ch with "/"%char => a | _ => b end = b) as Hb.
      { intros a b.
        destruct ch as [[] [] [] [] [] [] [] []]; try reflexivity.
        now destruct Hne. }
      rewrite !Hb. intros H%str_app_inv_head. discriminate.
    + intros H%str_app_inv_head. discriminate.
  - intros q Hq. unfold create_template_ini_file.
    destruct (template_for api_type w) as [[file_path content] url].
    cbn [fst] in Hq. unfold OsPath.isfile.
    destruct (fs w !! file_path) as [[names|old]|] eqn:Hat; cbn [negb snd];
      try reflexivity;
      unfold mbind, run_bind, write_file;
      (destruct (open_error w file_path); cbn [snd]; [reflexivity|]);
      cbn [emit print sys_exit record_event put_file snd fs];
      now apply lookup_insert_ne.
Qed.

(** ** Initialisation and the whole run *)

Lemma lstrip_no_lead (chars s : string) (ch : ascii) :
  Py.contains chars ch = true ->
  ~ Spec.leads (String ch "") (Py.lstrip chars s).
Proof.
  intros Hch. induction s as [|d s IH]; cbn [Py.lstrip].
  - intros [t Ht]. discriminate.
  - destruct (Py.contains chars d) eqn:Hd; [exact IH|].
    intros [t Ht]. cbn in Ht. injection Ht as -> _. congruence.
Qed.

Lemma rstrip_no_trail (chars s : string) (ch : ascii) :
  Py.contains chars ch = true ->
  ~ Spec.trails (String ch "") (Py.rstrip chars s).
Proof.
  intros Hch. induction s as [|d s IH]; cbn [Py.rstrip].
  - intros [[|x a] Ha]; discriminate.
  - destruct (Py.rstrip chars s) as [|e t] eqn:Hrs.
    + destruct (Py.contains chars d) eqn:Hd.
      * intros [[|x a] Ha]; discriminate.
      * intros [[|x [|y a]] Ha]; cbn in Ha; try discriminate.
        injection Ha as ->. congruence.
    + intros [[|x a] Ha]; cbn in Ha; [discriminate|].
      injection Ha as _ Ha. apply IH. now exists a.
Qed.

Lemma rstrip_keeps_lead (chars s : string) (ch : ascii) :
  Py.contains chars ch = true ->
  ~ Spec.leads (String ch "") s ->
  ~ Spec.leads (String ch "") (Py.rstrip chars s).
Proof.
  intros Hch Hs. destruct s as [|d s]; [exact Hs|]. cbn [Py.rstrip].
  assert (d <> ch) as Hd.
  { intros ->. apply Hs. now exists s. }
  destruct (Py.rstrip chars s) as [|e t].
  - destruct (Py.contains chars d).
    + intros [t Ht]. discriminate.
    + intros [t Ht]. cbn in Ht. injection Ht as ->. contradiction.
  - intros [u Hu]. cbn in Hu. injection Hu as ->. contradiction.
Qed.

(** A stripped text neither begins nor ends with a stripped character. *)
Lemma strip_ends (chars s : string) (ch : ascii) :
  Py.contains chars ch = true ->
  ~ Spec.leads (String ch "") (Py.strip chars s)
  /\ ~ Spec.trails (String ch "") (Py.strip chars s).
Proof.
  intros Hch. unfold Py.strip. split.
  - now apply rstrip_keeps_lead, lstrip_no_lead.
  - now apply rstrip_no_trail.
Qed.

Lemma setdefault_key (d : gmap string string) (key value : string) :
  setdefault d key value !! key
  = Some (match d !! key with Some v => v | None => value end).
Proof.
  unfold setdefault. destruct (d !! key) eqn:E; [exact E|].
  apply lookup_insert_eq.
Qed.

Lemma setdefault_other (d : gmap string string) (key value k : string) :
  k <> key -> setdefault d key value !! k = d !! k.
Proof.
  intros Hk. unfold setdefault. destruct (d !! key); [reflexivity|].
  now apply lookup_insert_ne.
Qed.

Section InitializeFacts.

Variable parse_config : string -> string + gmap string (gmap string string).
Variable make_openai : string -> string -> option string -> string + client.
Variable configure_genai : string -> string + client.

Lemma config_read_returned (path text : string) (w w1 : world) sections :
  fs w !! path = Some (File text) ->
  config_read parse_config path w = (Returned sections, w1) ->
  parse_config text = inr sections /\ w1 = record_event w (FileRead path).
Proof.
  intros Hat. unfold config_read. rewrite Hat.
  destruct (parse_config text); [discriminate|]. now intros [= -> <-].
Qed.

Lemma construct_returned {A} (made : string + A) (a : A) (w w1 : world) :
  construct made w = (Returned a, w1) -> made = inr a /\ w1 = w.
Proof. destruct made; [discriminate|]. now intros [= -> ->]. Qed.

(** What a returning [initialize_api] has gone through. *)
Lemma initialize_returned (api_type : string) (w w' : world) (c : client)
      (config : gmap string string) :
  initialize_api parse_config make_openai configure_genai api_type w
    = (Returned (c, config), w') ->
  exists text sections section,
    fs w !! fst (fst (template_for api_type w)) = Some (File text)
    /\ parse_config text = inr sections
    /\ sections !! (if String.eqb api_type "openai" then "openai" else "gemini")
       = Some section
    /\ config = setdefault (Py.strip quotes <$> section) "model"
                  (if String.eqb api_type "openai"
                   then default (OPENAI_DEFAULT_MODEL w)
                          ((Py.strip quotes <$> section) !! "model")
                   else GEMINI_DEFAULT_MODEL w)
    /\ w' = record_event w (FileRead (fst (fst (template_for api_type w)))).
Proof.
  unfold initialize_api.
  intros (u & w1 & [-> [old Hold]]%create_template_returned & Hk)%bind_returned.
  apply bind_returned in Hk as (constants & w2 & [= <- <-] & Hk).
  unfold template_for in *.
  destruct (String.eqb api_type "openai"); cbn [fst] in *.
  - apply bind_returned in Hk as (sections & w3 & Hread & Hk).
    apply (config_read_returned _ _ _ _ _ Hold) in Hread as [Hparse ->].
    apply bind_returned in Hk as (section & w4 & Hsec & Hk).
    unfold dict_get_section in Hsec.
    destruct (sections !! "openai") as [section'|] eqn:Hs; [|discriminate].
    injection Hsec as -> <-.
    apply bind_returned in Hk as (key & w5 & [_ ->]%dict_get_returned & Hk).
    apply bind_returned in Hk as (c' & w6 & [_ ->]%construct_returned & Hk).
    injection Hk as <- <- <-. eauto 10.
  - apply bind_returned in Hk as (sections & w3 & Hread & Hk).
    apply (config_read_returned _ _ _ _ _ Hold) in Hread as [Hparse ->].
    apply bind_returned in Hk as (section & w4 & Hsec & Hk).
    unfold dict_get_section in Hsec.
    destruct (sections !! "gemini") as [section'|] eqn:Hs; [|discriminate].
    injection Hsec as -> <-.
    apply bind_returned in Hk as (key & w5 & [_ ->]%dict_get_returned & Hk).
    apply bind_returned in Hk as (c' & w6 & [_ ->]%construct_returned & Hk).
    injection Hk as <- <- <-. eauto 10.
Qed.

(** The configuration [initialize_api] returns always names a model, so the
    lookup of the model in [get_completion] cannot fail: it is the value of
    the file's section, stripped of quotes, when the section has one, and
    the default read off the environment otherwise. *)
Theorem initialized_config_has_model (api_type : string) (w w' : world)
        (c : client) (config : gmap string string)
        (Hrun : initialize_api parse_config make_openai configure_genai
                  api_type w = (Returned (c, config), w')) :
  exists text sections section,
    fs w !! fst (fst (template_for api_type w)) = Some (File text)
    /\ parse_config text = inr sections
    /\ sections !! (if String.eqb api_type "openai" then "openai" else "gemini")
       = Some section
    /\ config !! "model"
       = Some (match section !! "model" with
               | Some v => Py.strip quotes v
               | None => if String.eqb api_type "openai"
                         then OPENAI_DEFAULT_MODEL w
                         else GEMINI_DEFAULT_MODEL w
               end).
Proof.
  apply initialize_returned in Hrun
    as (text & sections & section & Hat & Hparse & Hsec & -> & _).
  exists text, sections, section. repeat split; try assumption.
  rewrite setdefault_key, lookup_fmap.
  destruct (section !! "model"); cbn; [reflexivity|].
  now destruct (String.eqb api_type "openai").
Qed.

(** Every value of the returned configuration other than the model is a
    value of the file's section stripped of quotes, so it neither begins nor
    ends with a single or a double quote. *)
Theorem initialized_values_unquoted (api_type key value : string)
        (w w' : world) (c : client) (config : gmap string string)
        (Hrun : initialize_api parse_config make_openai configure_genai
                  api_type w = (Returned (c, config), w'))
        (Hvalue : config !! key = Some value) (Hkey : key <> "model") :
  forall ch, Py.contains quotes ch = true ->
             ~ Spec.leads (String ch "") value
             /\ ~ Spec.trails (String ch "") value.
Proof.
  apply initialize_returned in Hrun
    as (text & sections & section & _ & _ & _ & -> & _).
  rewrite setdefault_other, lookup_fmap in Hvalue by assumption.
  destruct (section !! key) as [v|]; [|discriminate].
  injection Hvalue as <-. intros ch. apply strip_ends.
Qed.

(** With the configuration file absent, [initialize_api] ends as the
    template creation does, in its exit with status 1 when the path can be
    opened and in the error of [open] otherwise, and with exactly its
    effects: nothing is read or parsed and no client is made. *)
Theorem initialize_without_config
        (api_type file_path content url : string) (w : world)
        (Hsel : template_for api_type w = (file_path, content, url))
        (Habsent : OsPath.isfile (fs w) file_path = false) :
  initialize_api parse_config make_openai configure_genai api_type w
  = (match open_error w file_path with
     | None => Exited 1%Z
     | Some e => Raised e
     end, snd (create_template_ini_file api_type w))
  /\ effects (initialize_api parse_config make_openai configure_genai api_type) w
     = effects (create_template_ini_file api_type) w.
Proof.
  assert (initialize_api parse_config make_openai configure_genai api_type w
          = (match open_error w file_path with
             | None => Exited 1%Z
             | Some e => Raised e
             end, snd (create_template_ini_file api_type w))) as H.
  { unfold initialize_api, mbind, run_bind.
    destruct (open_error w file_path) as [e|] eqn:Hopen.
    - now rewrite (create_template_blocked _ _ _ _ _ _ Hsel Habsent Hopen).
    - now rewrite (create_template_opened _ _ _ _ _ Hsel Habsent Hopen). }
  split; [exact H|]. unfold effects. now rewrite H.
Qed.

End InitializeFacts.

Lemma initialized_config_has_model_witness :
  exists text sections section,
    fs demo_configured !! fst (fst (template_for "gemini" demo_configured))
      = Some (File text)
    /\ demo_parse text = inr sections
    /\ sections !! "gemini" = Some section
    /\ ({[ "api_key" := "k"; "model" := "g-1" ]} : gmap string string) !! "model"
       = Some (match section !! "model" with
               | Some v => Py.strip quotes v
               | None => GEMINI_DEFAULT_MODEL demo_configured
               end).
Proof.
  apply (initialized_config_has_model demo_parse demo_make_openai
           demo_configure "gemini" demo_configured
           (record_event demo_configured
              (FileRead "/home/u/.config/geminiapirc"))
           demo_gemini).
  vm_compute. reflexivity.
Defined.

Lemma initialized_values_unquoted_witness :
  ~ Spec.leads "'" "k" /\ ~ Spec.trails "'" "k".
Proof.
  apply (initialized_values_unquoted demo_parse demo_make_openai
           demo_configure "gemini" "api_key" "k" demo_configured
           (record_event demo_configured
              (FileRead "/home/u/.config/geminiapirc"))
           demo_gemini {[ "api_key" := "k"; "model" := "g-1" ]}).
  - vm_compute. reflexivity.
  - vm_compute. reflexivity.
  - discriminate.
  - reflexivity.
Defined.

Lemma initialize_without_config_witness :
  initialize_api demo_parse demo_make_openai demo_configure "openai" demo_fresh
  = (Exited 1%Z, snd (create_template_ini_file "openai" demo_fresh))
  /\ effects (initialize_api demo_parse demo_make_openai demo_configure "openai")
       demo_fresh
     = effects (create_template_ini_file "openai") demo_fresh.
Proof.
  exact (initialize_without_config demo_parse demo_make_openai demo_configure
           "openai" "/home/u/.config/openaiapirc" openai_template
           "https://platform.openai.com/api-keys" demo_fresh eq_refl eq_refl).
Defined.

Lemma no_slash_no_path_witness :
  List.hd "?" (snd (extract_paths "type C:\x")) = ""
  /\ snd (extract_paths "ls -la") = [].
Proof.
  split.
  - apply (proj1 (no_slash_no_path "type C:\x" eq_refl)).
    vm_compute. now left.
  - apply (proj2 (no_slash_no_path "ls -la" eq_refl)). reflexivity.
Defined.

Lemma completion_returned_calls api c config (full_command cwd text : string)
      (w w1 : world) :
  get_completion api c config full_command cwd w = (Returned text, w1) ->
  exists events, log w1 = log w ++ events /\ calls events = 1.
Proof.
  unfold get_completion.
  intros (home & w0 & [_ ->]%environ_get_returned & Hk)%bind_returned.
  destruct (String.eqb api "openai").
  - apply bind_returned in Hk as (history & w2 & [_ ->]%read_file_returned & Hk).
    apply bind_returned in Hk as (names & w3 & [_ ->]%listdir_returned & Hk).
    apply bind_returned in Hk as (model & w4 & [_ ->]%dict_get_returned & Hk).
    apply bind_returned in Hk as (response & w5 & ->%chat_create_returned & Hk).
    apply bind_returned in Hk as (u1 & w6 & ->%write_file_returned & Hk).
    apply bind_returned in Hk as (u2 & w7 & ->%write_file_returned & Hk).
    destruct (first_content response); [|discriminate].
    injection Hk as _ <-. eexists. cbn [record_event put_file log].
    rewrite <- !app_assoc. split; reflexivity.
  - apply bind_returned in Hk as (model & w2 & [_ ->]%dict_get_returned & Hk).
    apply chat_send_returned in Hk as ->. eexists. cbn [record_event log].
    split; reflexivity.
Qed.

Section MainFacts.

Variable parse_config : string -> string + gmap string (gmap string string).
Variable make_openai : string -> string -> option string -> string + client.
Variable configure_genai : string -> string + client.

(** When the library of the chosen backend is not installed, [main] prints
    the installation hint and exits with status 1 before anything else: no
    configuration file is looked for or created. *)
Theorem main_missing_library (genai_lib openai_lib : bool)
        (cursor_position : Z) (cwd stdin : string) (w : world) :
  main parse_config make_openai configure_genai false genai_lib
    (Arguments_ "openai" cursor_position cwd) stdin w
  = (Exited 1%Z,
     record_event w
       (Printed "OpenAI library is not installed. Please install it using 'pip install openai'"))
  /\ main parse_config make_openai configure_genai openai_lib false
       (Arguments_ "gemini" cursor_position cwd) stdin w
     = (Exited 1%Z,
        record_event w
          (Printed "Google Generative AI library is not installed. Please install it using 'pip install google-generativeai'")).
Proof. split; reflexivity. Qed.

(** A run of [main] that returns has called the backend exactly once and
    its last effect is the write of the completion, which neither begins
    nor ends with a line break. *)
Theorem main_success (openai_lib genai_lib : bool) (args : arguments)
        (stdin : string) (w w' : world)
        (Hrun : main parse_config make_openai configure_genai
                  openai_lib genai_lib args stdin w = (Returned tt, w')) :
  exists events text,
    log w' = log w ++ events ++ [StdoutWritten text]
    /\ calls events = 1
    /\ ~ Spec.leads Py.nl text /\ ~ Spec.trails Py.nl text.
Proof.
  unfold main in Hrun.
  destruct (String.eqb (arg_api args) "openai" && negb openai_lib).
  { apply bind_returned in Hrun as (u & w1 & _ & Hexit). discriminate. }
  destruct (String.eqb (arg_api args) "gemini" && negb genai_lib).
  { apply bind_returned in Hrun as (u & w1 & _ & Hexit). discriminate. }
  apply bind_returned in Hrun as (initialized & w1 & Hinit & Hbody).
  destruct (quiet_initialize_api parse_config make_openai configure_genai
              (arg_api args) w) as (_ & _ & events0 & Hlog0 & Hcalls0).
  rewrite Hinit in Hlog0. cbn [snd] in Hlog0.
  unfold main_body in Hbody.
  apply bind_returned in Hbody as (completion & w2 & Hget & Hout).
  apply completion_returned_calls in Hget as (events1 & Hlog1 & Hcalls1).
  apply emit_returned in Hout as ->.
  exists (events0 ++ events1),
    (main_output stdin (arg_cursor_position args) completion).
  cbn [record_event log]. rewrite Hlog1, Hlog0, calls_app, <- !app_assoc.
  split; [reflexivity|]. split; [lia|]. apply reconcile_trimmed.
Qed.

End MainFacts.

Lemma main_success_witness :
  exists events text,
    log (snd (main demo_parse demo_make_openai demo_configure true true
                (Arguments_ "gemini" 11 "/tmp") "list files" demo_configured))
    = log demo_configured ++ events ++ [StdoutWritten text]
    /\ calls events = 1
    /\ ~ Spec.leads Py.nl text /\ ~ Spec.trails Py.nl text.
Proof.
  apply (main_success demo_parse demo_make_openai demo_configure true true
           (Arguments_ "gemini" 11 "/tmp") "list files" demo_configured).
  vm_compute. reflexivity.
Defined.

(** ** The script and the history *)

(** Run without an argument the script raises [IndexError] before printing
    anything; run with one it returns after printing four lines, never the
    warning: the matches, the table of checks, the input, and the matches
    again after their label. *)
Theorem script_report :
  (forall argv, List.length argv < 2 ->
                script_main argv = (Raised "IndexError", []))
  /\ (forall program input_string more,
        script_main (program :: input_string :: more)
        = (Returned tt,
           [Repr.of_list Repr.of_str (snd (extract_paths input_string));
            Repr.of_list (Repr.of_list Repr.of_bool)
              (List.map (fun _ => [true]) (snd (extract_paths input_string)));
            "Input: " +:+ input_string;
            "Extracted paths: "
            +:+ Repr.of_list Repr.of_str (snd (extract_paths input_string))])).
Proof.
  split.
  - intros [|program [|input_string more]] Hlen; try reflexivity.
    cbn in Hlen. lia.
  - intros program input_string more. unfold script_main. cbn [List.nth_error].
    rewrite script_extract_paths_value, extract_paths_value. cbn [snd].
    unfold checks. rewrite List.map_map. reflexivity.
Qed.

Lemma split_no_break (s : string) : Spec.no_break s -> Py.split Py.LF s = [s].
Proof.
  induction s as [|ch s IH]; [reflexivity|]. intros [Hch Hs]. cbn [Py.split].
  destruct (Ascii.eqb_spec ch Py.LF); [contradiction|]. now rewrite (IH Hs).
Qed.

Lemma split_app_break (x rest : string) :
  Spec.no_break x ->
  Py.split Py.LF (x +:+ Py.nl +:+ rest) = x :: Py.split Py.LF rest.
Proof.
  induction x as [|ch x IH]; intros Hx.
  - reflexivity.
  - destruct Hx as [Hch Hx].
    change (Py.split Py.LF (String ch (x +:+ Py.nl +:+ rest))
            = String ch x :: Py.split Py.LF rest).
    cbn [Py.split]. destruct (Ascii.eqb_spec ch Py.LF); [contradiction|].
    now rewrite (IH Hx).
Qed.

Lemma split_join (items : list string) :
  items <> [] -> Forall Spec.no_break items ->
  Py.split Py.LF (Py.join Py.nl items) = items.
Proof.
  induction items as [|x [|y items] IH]; intros Hne Hall; [contradiction| |].
  - apply split_no_break. now inversion Hall.
  - inversion Hall as [|? ? Hx Hrest]; subst.
    change (Py.join Py.nl (x :: y :: items))
      with (x +:+ Py.nl +:+ Py.join Py.nl (y :: items)).
    rewrite (split_app_break _ _ Hx). f_equal. now apply IH.
Qed.

Lemma split_items (s : string) :
  Py.split Py.LF s <> [] /\ Forall Spec.no_break (Py.split Py.LF s).
Proof.
  induction s as [|ch s [Hne Hall]]; cbn [Py.split].
  - split; [discriminate | repeat constructor].
  - destruct (Ascii.eqb_spec ch Py.LF) as [->|Hch].
    + split; [discriminate | constructor; [exact I | exact Hall]].
    + destruct (Py.split Py.LF s) as [|w ws]; [contradiction|].
      split; [discriminate|]. inversion Hall; subst.
      constructor; [now split | assumption].
Qed.

Lemma drop_no_break (n : nat) (s : string) :
  Spec.no_break s -> Spec.no_break (Py.drop n s).
Proof.
  revert s. induction n as [|n IH]; intros [|ch s] H; try exact H.
  cbn [Py.drop]. apply IH. now destruct H.
Qed.

Lemma last_n_length {A} (n : nat) (l : list A) :
  List.length (Py.last_n n l) = Nat.min n (List.length l).
Proof. unfold Py.last_n. rewrite List.length_skipn. lia. Qed.

Lemma last_n_all {A} (n : nat) (l : list A) (P : A -> Prop) :
  Forall P l -> Forall P (Py.last_n n l).
Proof.
  unfold Py.last_n. generalize (List.length l - n). intros k H.
  revert l H. induction k as [|k IH]; intros [|x l] H; try exact H.
  cbn. apply IH. now inversion H.
Qed.

(** The history handed to the backend has at least one and at most 1000
    lines: they are the last lines of the history file, each without its
    first 15 characters. *)
Theorem history_context (zsh_history : string) :
  Py.split Py.LF (history_tail zsh_history)
  = List.map (Py.drop 15) (Py.last_n 1000 (Py.split Py.LF zsh_history))
  /\ 1 <= List.length (Py.split Py.LF (history_tail zsh_history)) <= 1000.
Proof.
  destruct (split_items zsh_history) as [Hne Hall].
  assert (Py.split Py.LF (history_tail zsh_history)
          = List.map (Py.drop 15) (Py.last_n 1000 (Py.split Py.LF zsh_history)))
    as H.
  { unfold history_tail. apply split_join.
    - intros Hnil. apply (f_equal (@List.length string)) in Hnil.
      rewrite List.length_map, last_n_length in Hnil.
      destruct (Py.split Py.LF zsh_history); [contradiction|]. cbn in Hnil. lia.
    - apply List.Forall_forall. intros x (y & <- & Hy)%in_map_iff.
      apply drop_no_break.
      pose proof (last_n_all 1000 _ _ Hall) as Hlast.
      rewrite List.Forall_forall in Hlast. now apply Hlast. }
  split; [exact H|]. rewrite H, List.length_map, last_n_length.
  destruct (Py.split Py.LF zsh_history); [contradiction|]. cbn [List.length]. lia.
Qed.
